(** * Message-board markup decoder of [fusemods.js]

    A shallow embedding of [escapeHtml] and [formatMessageBoardText]
    (src/fusemods.js, lines 68-77 and 86-161) and the properties of the
    decoder that the specification states about them.

    JavaScript strings are modelled by [string]: a sequence of character
    codes.  Every character the program tests for (the marker, the code
    alphabet, the five escaped characters) is ASCII, and every other code
    unit is copied unchanged, so nothing below depends on what the
    remaining codes stand for. *)

From Stdlib Require Import String Ascii List Bool Arith Lia.
Import ListNotations.
Open Scope string_scope.

(** ** Characters *)

Definition amp : ascii := "&"%char.
Definition lt : ascii := "<"%char.
Definition gt : ascii := ">"%char.
Definition dquote : ascii := "034"%char.
Definition squote : ascii := "'"%char.

Definition inRange (lo hi c : ascii) : bool :=
  (Ascii.leb lo c && Ascii.leb c hi)%bool.

(** The character class of line 112, [[0-9a-fA-FklmnoBIr]]. *)
Definition codeChar (c : ascii) : bool :=
  (inRange "0" "9" c || inRange "a" "f" c || inRange "A" "F" c
   || Ascii.eqb c "k" || Ascii.eqb c "l" || Ascii.eqb c "m"
   || Ascii.eqb c "n" || Ascii.eqb c "o" || Ascii.eqb c "B"
   || Ascii.eqb c "I" || Ascii.eqb c "r")%bool.

(** The character class of line 76: ampersand, less-than, greater-than,
    double quote and single quote. *)
Definition htmlSpecial (c : ascii) : bool :=
  (Ascii.eqb c amp || Ascii.eqb c lt || Ascii.eqb c gt
   || Ascii.eqb c dquote || Ascii.eqb c squote)%bool.

(** ** The pieces of the JavaScript library the program calls *)

Module JS.

(** An object literal used as a map: the properties in the order they
    are written.  A key written twice keeps the value written last. *)
Definition object (K : Type) : Type := list (K * string).

Definition get {K : Type} (eqb : K -> K -> bool) (o : object K) (k : K)
  : option string :=
  fold_left (fun found kv => if eqb (fst kv) k then Some (snd kv) else found)
            o None.

(** Truthiness of a value that is [null]/[undefined] or a string. *)
Definition truthy (v : option string) : bool :=
  match v with
  | None => false
  | Some s => negb (s =? EmptyString)
  end.

(** [Set.prototype.add] on a set kept in insertion order: a member that
    is already present keeps its place, a new one goes to the end. *)
Definition set_add (x : string) (s : list string) : list string :=
  if existsb (String.eqb x) s then s else s ++ [x].

(** [Array.prototype.join]. *)
Definition join (sep : string) (l : list string) : string :=
  String.concat sep l.

(** [String.prototype.startsWith]. *)
Definition startsWith (s p : string) : bool := String.prefix p s.

(** [String.prototype.includes] for a one-character needle (line 176). *)
Fixpoint includes (s : string) (c : ascii) : bool :=
  match s with
  | EmptyString => false
  | String x rest => (Ascii.eqb x c || includes rest c)%bool
  end.

(** [s.split(/&([0-9a-fA-FklmnoBIr])/g)].  The pattern is tried at each
    position from left to right; where it matches, the piece read so far
    and then the captured character are pushed and the scan goes on
    after the two matched characters; the piece left at the end is
    pushed last.  The result alternates pieces of text (even indices)
    and captured characters (odd indices). *)
Definition pushFront (c : ascii) (parts : list string) : list string :=
  match parts with
  | piece :: more => String c piece :: more
  | [] => [String c EmptyString]
  end.

Fixpoint split (s : string) : list string :=
  match s with
  | EmptyString => [EmptyString]
  | String c rest =>
      match rest with
      | String d rest' =>
          if (Ascii.eqb c amp && codeChar d)%bool
          then EmptyString :: String d EmptyString :: split rest'
          else pushFront c (split rest)
      | EmptyString => pushFront c (split rest)
      end
  end.

End JS.

(** ** [escapeHtml] (lines 68-77) *)

Definition map : JS.object ascii :=
  [ (amp, "&amp;");
    (lt, "&lt;");
    (gt, "&gt;");
    (dquote, "&quot;");
    (squote, "&#039;") ].

(** The replacement callback [function(m) { return map[m]; }]; a missing
    key would be inserted as the text of [undefined]. *)
Definition replacement (m : ascii) : string :=
  match JS.get Ascii.eqb map m with
  | Some entity => entity
  | None => "undefined"
  end.

Fixpoint escapeHtml (text : string) : string :=
  match text with
  | EmptyString => EmptyString
  | String c rest =>
      if htmlSpecial c
      then replacement c ++ escapeHtml rest
      else String c (escapeHtml rest)
  end.

(** ** [formatMessageBoardText] (lines 86-161) *)

(** The table of lines 87-105, with [&i] written twice as it is there.
    Every key that is looked up begins with the marker, so no property the
    object inherits is ever found. *)
Definition formatMap : JS.object string :=
  [ ("&0", "message-color-0"); ("&1", "message-color-1");
    ("&2", "message-color-2"); ("&3", "message-color-3");
    ("&4", "message-color-4"); ("&5", "message-color-5");
    ("&k", "message-format-obfuscated");
    ("&l", "message-format-bold");
    ("&m", "message-format-strikethrough");
    ("&n", "message-format-underline");
    ("&i", "message-format-italic");
    ("&b", "message-format-bold");
    ("&i", "message-format-italic");
    ("&r", "message-format-reset") ].

(** The three variables the loop updates. *)
Record state : Type := mkState {
  formattedHtml : string;
  activeClasses : list string;
  activeColorClass : option string
}.

Definition initial : state :=
  {| formattedHtml := EmptyString; activeClasses := []; activeColorClass := None |}.

(** [classesToApply] of lines 122-125 and 145-148. *)
Definition classesToApply (st : state) : list string :=
  activeClasses st ++
  (if JS.truthy (activeColorClass st)
   then match activeColorClass st with Some c => [c] | None => [] end
   else []).

Definition span (classes : list string) (body : string) : string :=
  "<span class=" ++ String dquote (JS.join " " classes)
    ++ String dquote ">" ++ body ++ "</span>".

(** Lines 126-130 and 150-156: the same code in both branches. *)
Definition appendText (st : state) (text : string) : state :=
  let classes := classesToApply st in
  {| formattedHtml :=
       if Nat.ltb 0 (List.length classes)
       then formattedHtml st ++ span classes (escapeHtml text)
       else formattedHtml st ++ escapeHtml text;
     activeClasses := activeClasses st;
     activeColorClass := activeColorClass st |}.

(** One turn of the loop of lines 114-159, on [parts[i]]. *)
Definition step (i : nat) (part : string) (st : state) : state :=
  if Nat.eqb (i mod 2) 1 then
    let code := String amp part in
    let className := JS.get String.eqb formatMap code in
    if negb (JS.truthy className) then appendText st code
    else
      match className with
      | None => st
      | Some className =>
          if className =? "message-format-reset" then
            {| formattedHtml := formattedHtml st;
               activeClasses := [];
               activeColorClass := None |}
          else if JS.startsWith className "message-color-" then
            {| formattedHtml := formattedHtml st;
               activeClasses := activeClasses st;
               activeColorClass := Some className |}
          else if JS.startsWith className "message-format-" then
            {| formattedHtml := formattedHtml st;
               activeClasses := JS.set_add className (activeClasses st);
               activeColorClass := activeColorClass st |}
          else st
      end
  else
    if Nat.ltb 0 (String.length part) then appendText st part else st.

Fixpoint loop (i : nat) (parts : list string) (st : state) : state :=
  match parts with
  | [] => st
  | part :: more => loop (S i) more (step i part st)
  end.

Definition formatMessageBoardText (originalTextContent : string) : string :=
  formattedHtml (loop 0 (JS.split originalTextContent) initial).

(** The state of the loop when it has handled [parts[0..k-1]], and the
    loop run on a whole text from a given state. *)
Definition stateAt (text : string) (k : nat) : state :=
  loop 0 (firstn k (JS.split text)) initial.

Definition run (st : state) (text : string) : state :=
  loop 0 (JS.split text) st.

(** ** Segments: what one turn of the loop appends *)

Record segment : Type := mkSegment {
  classes : list string;
  content : string
}.

(** Lines 126-130 and 150-156 on one segment. *)
Definition render (seg : segment) : string :=
  if Nat.ltb 0 (List.length (classes seg))
  then span (classes seg) (escapeHtml (content seg))
  else escapeHtml (content seg).

Fixpoint renderAll (segs : list segment) : string :=
  match segs with
  | [] => EmptyString
  | seg :: more => render seg ++ renderAll more
  end.

(** The segment, if any, that [step i part st] appends. *)
Definition emitted (i : nat) (part : string) (st : state) : list segment :=
  if Nat.eqb (i mod 2) 1 then
    if negb (JS.truthy (JS.get String.eqb formatMap (String amp part)))
    then [ {| classes := classesToApply st; content := String amp part |} ]
    else []
  else
    if Nat.ltb 0 (String.length part)
    then [ {| classes := classesToApply st; content := part |} ]
    else [].

Fixpoint segmentsFrom (i : nat) (parts : list string) (st : state)
  : list segment :=
  match parts with
  | [] => []
  | part :: more => emitted i part st ++ segmentsFrom (S i) more (step i part st)
  end.

Definition segments (text : string) : list segment :=
  segmentsFrom 0 (JS.split text) initial.

(** ** Reading the output back *)

(** Dropping the tags of a fragment: everything from a less-than sign to
    the next greater-than sign. *)
Fixpoint dropTags (inTag : bool) (html : string) : string :=
  match html with
  | EmptyString => EmptyString
  | String c rest =>
      if inTag
      then dropTags (negb (Ascii.eqb c gt)) rest
      else if Ascii.eqb c lt then dropTags true rest
           else String c (dropTags false rest)
  end.

(** The character a reference at the head of [s] stands for, and the
    number of characters of the reference after its ampersand. *)
Definition referenceAt (s : string) : option (ascii * nat) :=
  if String.prefix "&amp;" s then Some (amp, 4)
  else if String.prefix "&lt;" s then Some (lt, 3)
  else if String.prefix "&gt;" s then Some (gt, 3)
  else if String.prefix "&quot;" s then Some (dquote, 5)
  else if String.prefix "&#039;" s then Some (squote, 5)
  else None.

(** Reversing the escaping; [skip] characters of a reference already
    decoded are still to be passed over. *)
Fixpoint unescapeFrom (skip : nat) (s : string) : string :=
  match s with
  | EmptyString => EmptyString
  | String c rest =>
      match skip with
      | S k => unescapeFrom k rest
      | O =>
          match referenceAt s with
          | Some (ch, n) => String ch (unescapeFrom n rest)
          | None => String c (unescapeFrom 0 rest)
          end
      end
  end.

Definition unescapeHtml (s : string) : string := unescapeFrom 0 s.

(** The text content of a fragment. *)
Definition textContent (html : string) : string :=
  unescapeHtml (dropTags false html).

(** The class names a fragment carries: inside a tag, the words between
    double quotes.  [word] is the part of the current word already read. *)
Inductive place : Type := InText | InTag | InValue.

Definition endWord (word : string) (names : list string) : list string :=
  if word =? EmptyString then names else word :: names.

Fixpoint classNamesFrom (at_ : place) (word : string) (html : string)
  : list string :=
  match html with
  | EmptyString => []
  | String c rest =>
      match at_ with
      | InText =>
          if Ascii.eqb c lt then classNamesFrom InTag EmptyString rest
          else classNamesFrom InText EmptyString rest
      | InTag =>
          if Ascii.eqb c gt then classNamesFrom InText EmptyString rest
          else if Ascii.eqb c dquote
               then classNamesFrom InValue EmptyString rest
               else classNamesFrom InTag EmptyString rest
      | InValue =>
          if Ascii.eqb c dquote
          then endWord word (classNamesFrom InTag EmptyString rest)
          else if Ascii.eqb c " "
               then endWord word (classNamesFrom InValue EmptyString rest)
               else classNamesFrom InValue (word ++ String c EmptyString) rest
      end
  end.

Definition classNames (html : string) : list string :=
  classNamesFrom InText EmptyString html.

Definition wordChar (c : ascii) : bool :=
  (negb (Ascii.eqb c dquote) && negb (Ascii.eqb c " "))%bool.

Definition notLt (c : ascii) : bool := negb (Ascii.eqb c lt).

(** ** The vocabulary of the specification *)

(** Code characters that have an entry in [formatMap]. *)
Definition styleChar (c : ascii) : bool :=
  (inRange "0" "5" c || Ascii.eqb c "b" || Ascii.eqb c "k" || Ascii.eqb c "l"
   || Ascii.eqb c "m" || Ascii.eqb c "n" || Ascii.eqb c "r")%bool.

Definition colorDigit (c : ascii) : bool := inRange "0" "5" c.

(** Code characters the pattern of line 112 accepts and [formatMap] has no
    entry for. *)
Definition unmappedChars : list ascii :=
  [ "6"; "7"; "8"; "9"; "a"; "c"; "d"; "e"; "f";
    "A"; "B"; "C"; "D"; "E"; "F"; "I"; "o" ]%char.

(** Those among them that the table leaves out as digits or letters with no
    style of their own: the hexadecimal digits from 6 on, the letters a and
    c to f in lower case, A and C to F in upper case, and o. *)
Definition unstyledChars : list ascii :=
  [ "6"; "7"; "8"; "9"; "a"; "c"; "d"; "e"; "f";
    "A"; "C"; "D"; "E"; "F"; "o" ]%char.

Definition colorClasses : list string :=
  [ "message-color-0"; "message-color-1"; "message-color-2";
    "message-color-3"; "message-color-4"; "message-color-5" ].

Definition formatClasses : list string :=
  [ "message-format-bold"; "message-format-strikethrough";
    "message-format-underline"; "message-format-italic";
    "message-format-obfuscated" ].

(** The class names of the styling contract. *)
Definition contractClasses : list string :=
  colorClasses ++ formatClasses ++ [ "message-format-reset" ].

(** A text made of the color codes of [digits]. *)
Fixpoint colorRun (digits : list ascii) : string :=
  match digits with
  | [] => EmptyString
  | d :: more => String amp (String d (colorRun more))
  end.

(** The input with the codes that have a table entry taken out. *)
Fixpoint stripCodes (s : string) : string :=
  match s with
  | EmptyString => EmptyString
  | String c rest =>
      match rest with
      | String d rest' =>
          if (Ascii.eqb c amp && styleChar d)%bool
          then stripCodes rest'
          else String c (stripCodes rest)
      | EmptyString => String c (stripCodes rest)
      end
  end.

(** Does [s] begin with a character of the code alphabet, and with a
    marker followed by one? *)
Definition startsWithCodeChar (s : string) : bool :=
  match s with
  | String d _ => codeChar d
  | EmptyString => false
  end.

Definition startsWithCode (s : string) : bool :=
  match s with
  | String c rest => (Ascii.eqb c amp && startsWithCodeChar rest)%bool
  | EmptyString => false
  end.

(** The color part of a class list. *)
Definition colorPart (color : option string) : list string :=
  match color with
  | Some c => [c]
  | None => []
  end.

(** Two lists of pieces put end to end: the last piece of the first list
    and the first piece of the second become one piece. *)
Fixpoint glue (l1 l2 : list string) : list string :=
  match l1 with
  | [] => l2
  | piece :: more =>
      match more with
      | [] =>
          match l2 with
          | first :: rest => (piece ++ first) :: rest
          | [] => [piece]
          end
      | _ :: _ => piece :: glue more l2
      end
  end.

(** The character reference the specification gives for each character. *)
Definition charReference (c : ascii) : string :=
  if Ascii.eqb c "&" then "&amp;"
  else if Ascii.eqb c "<" then "&lt;"
  else if Ascii.eqb c ">" then "&gt;"
  else if Ascii.eqb c dquote then "&quot;"
  else if Ascii.eqb c "'" then "&#039;"
  else String c EmptyString.

(** The text of a list of segments. *)
Fixpoint contents (segs : list segment) : string :=
  match segs with
  | [] => EmptyString
  | seg :: more => content seg ++ contents more
  end.

Fixpoint allChars (p : ascii -> bool) (s : string) : bool :=
  match s with
  | EmptyString => true
  | String c rest => (p c && allChars p rest)%bool
  end.

Definition notGt (c : ascii) : bool := negb (Ascii.eqb c gt).
Definition notAngle (c : ascii) : bool :=
  (negb (Ascii.eqb c lt) && negb (Ascii.eqb c gt))%bool.

(** The pieces at the odd indices, counted from [i], are single characters
    of the code alphabet. *)
Definition codesAt (i : nat) (parts : list string) : Prop :=
  forall k part,
    nth_error parts k = Some part ->
    Nat.odd (i + k) = true ->
    exists d, part = String d EmptyString /\ codeChar d = true.

(** What holds of the style state at every point of a decode. *)
Definition wellStyled (st : state) : Prop :=
  Forall (fun c => In c formatClasses) (activeClasses st) /\
  Forall (fun c => In c colorClasses) (colorPart (activeColorClass st)).

(** ** The rest of the script *)

(** *** More of the JavaScript and DOM library *)

Module Lib.

(** The white space and line terminators of [String.prototype.trim] among
    the character codes a [string] can hold: tab, line feed, vertical tab,
    form feed, carriage return, space and no-break space.  (The others,
    from U+1680 on, are codes above 255.) *)
Definition isWhiteSpace (c : ascii) : bool :=
  (inRange "009" "013" c || Ascii.eqb c " " || Ascii.eqb c "160")%bool.

Fixpoint trimStart (s : string) : string :=
  match s with
  | EmptyString => EmptyString
  | String c rest => if isWhiteSpace c then trimStart rest else s
  end.

Fixpoint trimEnd (s : string) : string :=
  match s with
  | EmptyString => EmptyString
  | String c rest =>
      match trimEnd rest with
      | EmptyString => if isWhiteSpace c then EmptyString else String c EmptyString
      | String d kept => String c (String d kept)
      end
  end.

(** [String.prototype.trim]. *)
Definition trim (s : string) : string := trimEnd (trimStart s).

(** [DOMTokenList.contains] and [DOMTokenList.add]: a class list is an
    ordered set of tokens. *)
Definition contains (tokens : list string) (token : string) : bool :=
  existsb (String.eqb token) tokens.

Definition add (tokens : list string) (token : string) : list string :=
  JS.set_add token tokens.

End Lib.

(** *** The style sheet (lines 9-48) *)

Definition newline : ascii := "010"%char.

(** The template literal of lines 9-48, line by line. *)
Definition dynamicStyles : string :=
  String.concat (String newline EmptyString)
    [ EmptyString;
      "/* Color Modifiers */";
      ".message-color-0 { color: #7DDA58; }";
      ".message-color-1 { color: #FFDD36; }";
      ".message-color-2 { color: #FF8636; }";
      ".message-color-3 { color: #FF3636; }";
      ".message-color-4 { color: #9636FD; }";
      ".message-color-5 { color: #3D2DE6; }";
      ".message-color-r { color: inherit; font-weight: normal; font-style: normal; text-decoration: none; }";
      EmptyString;
      "/* Formatting Styles */";
      ".message-format-bold { font-weight: bold; }";
      ".message-format-strikethrough { text-decoration: line-through; }";
      ".message-format-underline { text-decoration: underline; }";
      ".message-format-italic { font-style: italic; }";
      EmptyString;
      "/* Reset style (often handled by clearing classes, but can be explicit) */";
      ".message-format-reset {";
      "    color: inherit !important; /* Resets to parent color */";
      "    font-weight: normal !important;";
      "    font-style: normal !important;";
      "    text-decoration: none !important;";
      "}";
      EmptyString;
      "/* Status Indicator Styles */";
      ".status-value.status-in-production {";
      "    color: green !important;";
      "    font-weight: bold;";
      "}";
      EmptyString;
      ".status-value.status-ready-for-production {";
      "    color: orange !important;";
      "    font-style: italic;";
      "}";
      EmptyString;
      "/* Example customer style (if part of this context) */";
      ".customer {";
      "    font-weight: bold;";
      "}";
      EmptyString ].

(** *** [applyMessageBoardFormatting] (lines 167-183) *)

Module Message.

(** What a message element holds: the nodes the page came with, of which
    the script only reads the text, or the nodes parsed from markup that
    was assigned to [innerHTML]. *)
Inductive children : Type :=
| Original (text : string)
| Parsed (html : string).

(** An element, as far as the script reads and writes it. *)
Record element : Type := mkElement {
  classList : list string;
  childNodes : children
}.

(** The [textContent] getter.  The markup the script assigns is made of
    escaped text and [span] tags, which [textContent] above reads back. *)
Definition textContentOf (el : element) : string :=
  match childNodes el with
  | Original text => text
  | Parsed html => textContent html
  end.

(** The callback of [forEach], lines 170-181. *)
Definition formatElement (messageBoardElement : element) : element :=
  if negb (Lib.contains (classList messageBoardElement) "formatted-by-js")
  then
    let originalTextContent := textContentOf messageBoardElement in
    if JS.includes originalTextContent amp
    then
      {| classList := Lib.add (classList messageBoardElement) "formatted-by-js";
         childNodes := Parsed (formatMessageBoardText originalTextContent) |}
    else messageBoardElement
  else messageBoardElement.

(** One run of the function on the elements of the page, in document
    order; [querySelectorAll('.message')] selects those of class
    [message].  The message elements are taken not to lie inside one
    another. *)
Definition applyMessageBoardFormatting (page : list element) : list element :=
  List.map (fun el => if Lib.contains (classList el) "message"
                      then formatElement el
                      else el)
           page.

End Message.

(** *** [applyStatusStyles] (lines 194-216) *)

Module Status.

Record node : Type := mkNode {
  nodeType : nat;
  textContent : string
}.

Definition TEXT_NODE : nat := 3.

Record element : Type := mkElement {
  classList : list string;
  childNodes : list node
}.

(** [statusText] after the loop of lines 203-208: the trimmed text of the
    first text node, or the empty string when there is none. *)
Fixpoint statusTextOf (nodes : list node) : string :=
  match nodes with
  | [] => EmptyString
  | node :: more =>
      if Nat.eqb (nodeType node) TEXT_NODE
      then Lib.trim (textContent node)
      else statusTextOf more
  end.

(** The callback of [forEach], lines 195-215. *)
Definition styleElement (el : element) : element :=
  if (Lib.contains (classList el) "status-in-production"
      || Lib.contains (classList el) "status-ready-for-production")%bool
  then el
  else
    let statusText := statusTextOf (childNodes el) in
    if statusText =? "IN PRODUCTION" then
      {| classList := Lib.add (classList el) "status-in-production";
         childNodes := childNodes el |}
    else if statusText =? "READY FOR PRODUCTION" then
      {| classList := Lib.add (classList el) "status-ready-for-production";
         childNodes := childNodes el |}
    else el.

(** One run of the function; [querySelectorAll('.status-value')] selects
    the elements of class [status-value]. *)
Definition applyStatusStyles (page : list element) : list element :=
  List.map (fun el => if Lib.contains (classList el) "status-value"
                      then styleElement el
                      else el)
           page.

End Status.

(** *** Vocabulary for the properties of the rest of the script *)

(** The pieces put back together, the marker before each captured
    character. *)
Fixpoint rejoin (i : nat) (parts : list string) : string :=
  match parts with
  | [] => EmptyString
  | part :: more =>
      (if Nat.odd i then String amp part else part) ++ rejoin (S i) more
  end.

(** Two states with the same active formats and active color. *)
Definition sameStyle (st st' : state) : Prop :=
  activeClasses st = activeClasses st' /\
  activeColorClass st = activeColorClass st'.

(** The class names a decode can put in its output. *)
Definition emittedClasses : list string :=
  colorClasses ++
  [ "message-format-bold"; "message-format-strikethrough";
    "message-format-underline"; "message-format-obfuscated" ].

(** The state of the loop at a point of a decode of well-formed pieces. *)
Definition reachableStyle (st : state) : Prop :=
  Forall (fun c => In c emittedClasses /\ ~ In c colorClasses)
         (activeClasses st) /\
  NoDup (activeClasses st) /\
  Forall (fun c => In c colorClasses) (colorPart (activeColorClass st)).

(** The characters [escapeHtml] replaces never stand for themselves in
    markup text. *)
Definition markupSafe (c : ascii) : bool :=
  (negb (Ascii.eqb c lt) && negb (Ascii.eqb c gt)
   && negb (Ascii.eqb c dquote) && negb (Ascii.eqb c squote))%bool.

(** The style sheet has a rule whose selector ends in the class. *)
Definition hasRule (css className : string) : bool :=
  match String.index 0 ("." ++ className ++ " {") css with
  | Some _ => true
  | None => false
  end.

(** * Properties *)

(** ** The decoder on the examples of the specification *)

Example escape_script : escapeHtml "<script>" = "&lt;script&gt;".
Proof. reflexivity. Qed.

Example single_color :
  formatMessageBoardText "&1Hello"
  = "<span class=" ++ String dquote "message-color-1"
      ++ String dquote ">Hello</span>".
Proof. reflexivity. Qed.

Example split_alternates :
  JS.split "a&1b&&x&k" = ["a"; "1"; "b&&x"; "k"; EmptyString].
Proof. reflexivity. Qed.

Example dangling_markers :
  formatMessageBoardText "Tom & Jerry &z&"
  = "Tom &amp; Jerry &amp;z&amp;".
Proof. reflexivity. Qed.

Example stripCodes_keeps_the_rest :
  stripCodes "&l&6x<&1 a&b'&&r&" = "&6x< a'&&".
Proof. reflexivity. Qed.

(** ** Strings and characters *)

Lemma string_pair_ind (P : string -> Prop) :
  P EmptyString ->
  (forall c, P (String c EmptyString)) ->
  (forall c d s, P s -> P (String d s) -> P (String c (String d s))) ->
  forall s, P s.
Proof.
  intros Hnil Hone Hstep s.
  assert (both : P s /\ forall c, P (String c s)).
  { induction s as [|d s [IHs IHcs]].
    - split; [exact Hnil | exact Hone].
    - split; [apply IHcs | intro c; apply Hstep; [exact IHs | apply IHcs]]. }
  exact (proj1 both).
Qed.

Lemma append_nil_r (s : string) : s ++ EmptyString = s.
Proof. induction s as [|c s IH]; simpl; [reflexivity | now rewrite IH]. Qed.

Lemma append_assoc (a b c : string) : (a ++ b) ++ c = a ++ (b ++ c).
Proof. induction a as [|x a IH]; simpl; [reflexivity | now rewrite IH]. Qed.

Ltac each_char c :=
  destruct c as [[] [] [] [] [] [] [] []]; vm_compute; try reflexivity;
  try discriminate; try tauto.

Lemma styleChar_spec (d : ascii) :
  (codeChar d
   && JS.truthy (JS.get String.eqb formatMap (String amp (String d EmptyString))))%bool
  = styleChar d.
Proof. each_char d. Qed.

Lemma styleChar_codeChar (d : ascii) : styleChar d = true -> codeChar d = true.
Proof. each_char d. Qed.

Lemma unmapped_spec (d : ascii) :
  In d unmappedChars <->
  codeChar d = true /\
  JS.get String.eqb formatMap (String amp (String d EmptyString)) = None.
Proof.
  split.
  - intro H. unfold unmappedChars in H. simpl in H.
    repeat (destruct H as [H|H]; [subst d; split; reflexivity|]).
    contradiction.
  - destruct d as [[] [] [] [] [] [] [] []]; vm_compute; intros [H1 H2];
      try discriminate; tauto.
Qed.

(** ** The tokenizer *)

Lemma split_code (d : ascii) (s : string) :
  codeChar d = true ->
  JS.split (String amp (String d s))
  = EmptyString :: String d EmptyString :: JS.split s.
Proof. intro H. simpl. rewrite H. reflexivity. Qed.

Lemma split_text (c : ascii) (rest : string) :
  (Ascii.eqb c amp && startsWithCodeChar rest)%bool = false ->
  JS.split (String c rest) = JS.pushFront c (JS.split rest).
Proof.
  intro H. destruct rest as [|d rest']; [reflexivity|].
  simpl in H. cbn [JS.split]. rewrite H. reflexivity.
Qed.

Lemma split_cons (s : string) :
  exists piece more, JS.split s = piece :: more.
Proof.
  induction s as [|c | c d s IHs IHds] using string_pair_ind.
  - now exists EmptyString, [].
  - now exists (String c EmptyString), [].
  - destruct (Ascii.eqb c amp && codeChar d)%bool eqn:E.
    + cbn [JS.split]. rewrite E. eauto.
    + rewrite split_text by exact E.
      destruct IHds as (piece & more & ->). simpl. eauto.
Qed.

Lemma pushFront_length (c : ascii) (s : string) :
  List.length (JS.pushFront c (JS.split s)) = List.length (JS.split s).
Proof. destruct (split_cons s) as (piece & more & ->). reflexivity. Qed.

Lemma split_length_odd (s : string) : Nat.odd (List.length (JS.split s)) = true.
Proof.
  induction s as [|c | c d s IHs IHds] using string_pair_ind;
    [reflexivity | reflexivity |].
  destruct (Ascii.eqb c amp && codeChar d)%bool eqn:E.
  - cbn [JS.split]. rewrite E. exact IHs.
  - rewrite split_text by exact E. rewrite pushFront_length. exact IHds.
Qed.

(** A code after any text starts a fresh token: the pieces of the text
    before it are those of that text alone. *)
Lemma split_app_code (pre : string) (d : ascii) (post : string) :
  codeChar d = true ->
  JS.split (pre ++ String amp (String d post))
  = (JS.split pre ++ String d EmptyString :: JS.split post)%list.
Proof.
  intro Hd.
  induction pre as [|c | c e pre IHpre IHepre] using string_pair_ind.
  - simpl. rewrite Hd. reflexivity.
  - cbn [append]. rewrite split_text.
    + rewrite split_code by exact Hd. reflexivity.
    + cbn. apply andb_false_r.
  - cbn [append]. destruct (Ascii.eqb c amp && codeChar e)%bool eqn:E.
    + cbn [JS.split]. rewrite E. cbn [append] in IHpre.
      rewrite IHpre. reflexivity.
    + rewrite (split_text c (String e pre)) by exact E.
      rewrite split_text by exact E. cbn [append] in IHepre.
      rewrite IHepre.
      destruct (split_cons (String e pre)) as (piece & more & ->).
      reflexivity.
Qed.

(** ** The loop *)

Lemma isCode_odd (i : nat) : Nat.eqb (i mod 2) 1 = Nat.odd i.
Proof.
  rewrite <- Nat.bit0_mod, <- Nat.bit0_odd.
  now destruct (Nat.testbit i 0).
Qed.

Lemma step_parity (i j : nat) (part : string) (st : state) :
  Nat.odd i = Nat.odd j -> step i part st = step j part st.
Proof. intro H. unfold step. rewrite !isCode_odd, H. reflexivity. Qed.

Lemma loop_parity (parts : list string) :
  forall i j st, Nat.odd i = Nat.odd j -> loop i parts st = loop j parts st.
Proof.
  induction parts as [|part more IH]; intros i j st H; [reflexivity|].
  simpl. rewrite (step_parity i j) by exact H.
  apply IH. rewrite !Nat.odd_succ, <- !Nat.negb_odd, H. reflexivity.
Qed.

Lemma loop_app (l1 l2 : list string) :
  forall i st,
    loop i (l1 ++ l2) st = loop (i + List.length l1) l2 (loop i l1 st).
Proof.
  induction l1 as [|part l1 IH]; intros i st; simpl.
  - now rewrite Nat.add_0_r.
  - rewrite IH. now rewrite Nat.add_succ_r.
Qed.

Lemma run_empty (st : state) : run st EmptyString = st.
Proof. destruct st. reflexivity. Qed.

(** Decoding a text, then a code, then more text. *)
Lemma run_code (st : state) (pre : string) (d : ascii) (post : string) :
  codeChar d = true ->
  run st (pre ++ String amp (String d post))
  = run (step 1 (String d EmptyString) (run st pre)) post.
Proof.
  intro Hd. unfold run. rewrite split_app_code by exact Hd.
  rewrite loop_app. simpl.
  pose proof (split_length_odd pre) as Hodd.
  rewrite (step_parity _ 1) by (rewrite Hodd; reflexivity).
  apply loop_parity. rewrite Nat.odd_succ, <- Nat.negb_odd, Hodd. reflexivity.
Qed.

(** ** The code table *)

Lemma get_In {K : Type} (eqb : K -> K -> bool) (o : JS.object K) (k : K)
      (v : string) :
  JS.get eqb o k = Some v -> In v (List.map snd o).
Proof.
  unfold JS.get.
  enough (G : forall found,
             fold_left (fun found kv =>
                          if eqb (fst kv) k then Some (snd kv) else found)
                       o found = Some v ->
             found = Some v \/ In v (List.map snd o)).
  { intro H. destruct (G None H) as [H0|H0]; [discriminate | exact H0]. }
  induction o as [|[k' v'] o IH]; intros found H; simpl in *.
  - now left.
  - destruct (IH _ H) as [H0|H0]; [|now right; right].
    destruct (eqb k' k).
    + injection H0 as ->. right. now left.
    + now left.
Qed.

(** What the loop does on each kind of code, at an odd index. *)
Lemma step_unmapped (st : state) (d : ascii) :
  In d unmappedChars ->
  step 1 (String d EmptyString) st
  = appendText st (String amp (String d EmptyString)).
Proof.
  intro H. unfold unmappedChars in H. simpl in H.
  repeat (destruct H as [H|H]; [subst d; reflexivity|]).
  contradiction.
Qed.

Lemma step_color (st : state) (d : ascii) :
  colorDigit d = true ->
  step 1 (String d EmptyString) st
  = {| formattedHtml := formattedHtml st;
       activeClasses := activeClasses st;
       activeColorClass := Some ("message-color-" ++ String d EmptyString) |}.
Proof. revert st. destruct d as [[] [] [] [] [] [] [] []]; easy. Qed.

Lemma step_reset (st : state) :
  step 1 "r" st
  = {| formattedHtml := formattedHtml st;
       activeClasses := [];
       activeColorClass := None |}.
Proof. reflexivity. Qed.

Lemma step_format (st : state) (d : ascii) (className : string) :
  JS.get String.eqb formatMap (String amp (String d EmptyString))
  = Some className ->
  In className formatClasses ->
  step 1 (String d EmptyString) st
  = {| formattedHtml := formattedHtml st;
       activeClasses := JS.set_add className (activeClasses st);
       activeColorClass := activeColorClass st |}.
Proof.
  revert st.
  destruct d as [[] [] [] [] [] [] [] []]; intros st G Hin;
    vm_compute in G; try discriminate G; injection G as <-;
    try reflexivity; exfalso; simpl in Hin;
    repeat (destruct Hin as [Hin|Hin]; [discriminate Hin|]); exact Hin.
Qed.

Lemma set_add_present (x : string) (s : list string) :
  In x s -> JS.set_add x s = s.
Proof.
  intro H. unfold JS.set_add.
  replace (existsb (String.eqb x) s) with true; [reflexivity|].
  symmetry. apply existsb_exists. exists x. split; [exact H|].
  apply String.eqb_refl.
Qed.

Lemma set_add_absent (x : string) (s : list string) :
  ~ In x s -> JS.set_add x s = (s ++ [x])%list.
Proof.
  intro H. unfold JS.set_add.
  destruct (existsb (String.eqb x) s) eqn:E; [|reflexivity].
  apply existsb_exists in E. destruct E as (y & Hy & Exy).
  apply String.eqb_eq in Exy. subst y. contradiction.
Qed.

(** ** The style state *)

Lemma Forall_set_add (P : string -> Prop) (x : string) (s : list string) :
  P x -> Forall P s -> Forall P (JS.set_add x s).
Proof.
  intros Hx Hs. unfold JS.set_add. destruct (existsb (String.eqb x) s).
  - exact Hs.
  - apply Forall_app. split; [exact Hs | now constructor].
Qed.

Lemma wellStyled_initial : wellStyled initial.
Proof. split; constructor. Qed.

Lemma wellStyled_step (i : nat) (part : string) (st : state) :
  wellStyled st -> wellStyled (step i part st).
Proof.
  intros [Hf Hc]. unfold step. destruct (Nat.eqb (i mod 2) 1).
  - destruct (JS.get String.eqb formatMap (String amp part)) as [cls|] eqn:G.
    + apply get_In in G. simpl in G.
      repeat (destruct G as [<-|G];
              [cbn; split; cbn;
               first [ exact Hf | exact Hc | constructor
                     | apply Forall_set_add; [simpl; tauto | exact Hf] ];
               first [ simpl; tauto | constructor ] |]).
      contradiction.
    + cbn. now split.
  - destruct (Nat.ltb 0 (String.length part)); now split.
Qed.

Lemma wellStyled_loop (parts : list string) :
  forall i st, wellStyled st -> wellStyled (loop i parts st).
Proof.
  induction parts as [|part more IH]; intros i st H; simpl; [exact H|].
  apply IH. now apply wellStyled_step.
Qed.

Lemma wellStyled_stateAt (text : string) (k : nat) :
  wellStyled (stateAt text k).
Proof. apply wellStyled_loop, wellStyled_initial. Qed.

Lemma wellStyled_run (st : state) (text : string) :
  wellStyled st -> wellStyled (run st text).
Proof. apply wellStyled_loop. Qed.

(** ** Segments and the output *)

Lemma renderAll_app (a b : list segment) :
  renderAll (a ++ b) = renderAll a ++ renderAll b.
Proof.
  induction a as [|seg a IH]; simpl; [reflexivity|].
  now rewrite IH, append_assoc.
Qed.

Lemma contents_app (a b : list segment) :
  contents (a ++ b) = contents a ++ contents b.
Proof.
  induction a as [|seg a IH]; simpl; [reflexivity|].
  now rewrite IH, append_assoc.
Qed.

Lemma appendText_html (st : state) (text : string) :
  formattedHtml (appendText st text)
  = formattedHtml st
    ++ render {| classes := classesToApply st; content := text |}.
Proof.
  unfold appendText, render. simpl.
  now destruct (Nat.ltb 0 (List.length (classesToApply st))).
Qed.

Lemma step_html (i : nat) (part : string) (st : state) :
  formattedHtml (step i part st)
  = formattedHtml st ++ renderAll (emitted i part st).
Proof.
  unfold step, emitted. destruct (Nat.eqb (i mod 2) 1).
  - destruct (JS.get String.eqb formatMap (String amp part)) as [cls|].
    + destruct (negb (JS.truthy (Some cls))).
      * rewrite appendText_html. simpl. now rewrite append_nil_r.
      * simpl. rewrite append_nil_r.
        destruct (cls =? "message-format-reset"); [reflexivity|].
        destruct (JS.startsWith cls "message-color-"); [reflexivity|].
        now destruct (JS.startsWith cls "message-format-").
    + cbn [JS.truthy negb]. rewrite appendText_html. simpl.
      now rewrite append_nil_r.
  - destruct (Nat.ltb 0 (String.length part)).
    + rewrite appendText_html. simpl. now rewrite append_nil_r.
    + simpl. now rewrite append_nil_r.
Qed.

Lemma loop_html (parts : list string) :
  forall i st,
    formattedHtml (loop i parts st)
    = formattedHtml st ++ renderAll (segmentsFrom i parts st).
Proof.
  induction parts as [|part more IH]; intros i st; simpl.
  - now rewrite append_nil_r.
  - now rewrite IH, step_html, renderAll_app, append_assoc.
Qed.

(** The output is the segments, rendered one after the other. *)
Lemma output_segments (text : string) :
  formatMessageBoardText text = renderAll (segments text).
Proof. unfold formatMessageBoardText. now rewrite loop_html. Qed.

Lemma emitted_classes (i : nat) (part : string) (st : state) (seg : segment) :
  In seg (emitted i part st) -> classes seg = classesToApply st.
Proof.
  unfold emitted. intro H.
  repeat match type of H with
         | In _ (if ?b then _ else _) => destruct b
         end;
    simpl in H; try contradiction;
    (destruct H as [<-|H]; [reflexivity | contradiction]).
Qed.

Lemma classesToApply_wellStyled (st : state) :
  wellStyled st ->
  classesToApply st
  = (activeClasses st ++ colorPart (activeColorClass st))%list.
Proof.
  intros [_ Hc]. unfold classesToApply.
  destruct (activeColorClass st) as [c|]; [|reflexivity].
  simpl in *. inversion Hc as [|? ? Hin _]; subst.
  simpl in Hin.
  repeat (destruct Hin as [<-|Hin]; [reflexivity|]). contradiction.
Qed.

Lemma classesToApply_contract (st : state) :
  wellStyled st -> Forall (fun c => In c contractClasses) (classesToApply st).
Proof.
  intro H. rewrite classesToApply_wellStyled by exact H.
  destruct H as [Hf Hc]. apply Forall_app. split.
  - eapply Forall_impl; [|exact Hf]. intros c Hin.
    unfold contractClasses. apply in_or_app. right. apply in_or_app. now left.
  - eapply Forall_impl; [|exact Hc]. intros c Hin.
    unfold contractClasses. apply in_or_app. now left.
Qed.

Lemma segmentsFrom_contract (parts : list string) :
  forall i st,
    wellStyled st ->
    Forall (fun seg => Forall (fun c => In c contractClasses) (classes seg))
           (segmentsFrom i parts st).
Proof.
  induction parts as [|part more IH]; intros i st H; simpl; [constructor|].
  apply Forall_app. split.
  - apply Forall_forall. intros seg Hin.
    rewrite (emitted_classes _ _ _ _ Hin). now apply classesToApply_contract.
  - apply IH. now apply wellStyled_step.
Qed.

(** ** Reading the output back *)

Lemma allChars_app (p : ascii -> bool) (a b : string) :
  allChars p (a ++ b) = (allChars p a && allChars p b)%bool.
Proof.
  induction a as [|c a IH]; simpl; [reflexivity|].
  now rewrite IH, andb_assoc.
Qed.

Lemma dropTags_plain (a r : string) :
  allChars notAngle a = true ->
  dropTags false (a ++ r) = a ++ dropTags false r.
Proof.
  induction a as [|c a IH]; simpl; intro H; [reflexivity|].
  apply andb_prop in H. destruct H as [Hc Ha].
  unfold notAngle in Hc. apply andb_prop in Hc. destruct Hc as [Hlt _].
  apply negb_true_iff in Hlt. rewrite Hlt. now rewrite IH.
Qed.

Lemma dropTags_inTag (a r : string) :
  allChars notGt a = true ->
  dropTags true (a ++ r) = dropTags true r.
Proof.
  induction a as [|c a IH]; simpl; intro H; [reflexivity|].
  apply andb_prop in H. destruct H as [Hc Ha].
  unfold notGt in Hc. rewrite Hc. now apply IH.
Qed.

Lemma htmlSpecial_cases (c : ascii) :
  htmlSpecial c = true ->
  c = amp \/ c = lt \/ c = gt \/ c = dquote \/ c = squote.
Proof.
  unfold htmlSpecial. intro H.
  repeat (apply orb_prop in H; destruct H as [H|H]);
    apply Ascii.eqb_eq in H; tauto.
Qed.

Lemma htmlSpecial_false (c : ascii) :
  htmlSpecial c = false -> c <> amp /\ c <> lt /\ c <> gt.
Proof.
  unfold htmlSpecial. intro H.
  repeat (apply orb_false_elim in H; destruct H as [H ?]).
  repeat split; intros ->; discriminate.
Qed.

Lemma escapeHtml_plain (text : string) :
  allChars notAngle (escapeHtml text) = true.
Proof.
  induction text as [|c text IH]; simpl; [reflexivity|].
  destruct (htmlSpecial c) eqn:E.
  - rewrite allChars_app, IH.
    destruct (htmlSpecial_cases c E) as [->|[->|[->|[->| ->]]]]; reflexivity.
  - simpl. rewrite IH.
    destruct (htmlSpecial_false c E) as (_ & Hlt & Hgt).
    unfold notAngle.
    apply Ascii.eqb_neq in Hlt, Hgt. now rewrite Hlt, Hgt.
Qed.

Lemma contract_notGt (c : string) :
  In c contractClasses -> allChars notGt c = true.
Proof.
  intro H. simpl in H.
  repeat (destruct H as [<-|H]; [reflexivity|]). contradiction.
Qed.

Lemma join_notGt (cls : list string) :
  Forall (fun c => In c contractClasses) cls ->
  allChars notGt (JS.join " " cls) = true.
Proof.
  unfold JS.join.
  induction cls as [|c cls IH]; intro H; [reflexivity|].
  inversion H as [|? ? Hc Hcls]; subst.
  destruct cls as [|c' cls]; simpl.
  - now apply contract_notGt.
  - rewrite allChars_app. rewrite (contract_notGt c Hc). simpl.
    now apply IH.
Qed.

Lemma dropTags_span (cls : list string) (body r : string) :
  Forall (fun c => In c contractClasses) cls ->
  allChars notAngle body = true ->
  dropTags false (span cls body ++ r) = body ++ dropTags false r.
Proof.
  intros Hcls Hbody. unfold span.
  cbn [append dropTags Ascii.eqb Bool.eqb lt gt negb].
  rewrite !append_assoc.
  rewrite dropTags_inTag by now apply join_notGt.
  cbn [append dropTags Ascii.eqb Bool.eqb lt gt negb dquote].
  rewrite append_assoc, dropTags_plain by exact Hbody.
  reflexivity.
Qed.

Lemma dropTags_render (seg : segment) (r : string) :
  Forall (fun c => In c contractClasses) (classes seg) ->
  dropTags false (render seg ++ r)
  = escapeHtml (content seg) ++ dropTags false r.
Proof.
  intro H. unfold render.
  destruct (Nat.ltb 0 (List.length (classes seg))).
  - apply dropTags_span; [exact H | apply escapeHtml_plain].
  - apply dropTags_plain, escapeHtml_plain.
Qed.

Lemma referenceAt_plain (c : ascii) (s : string) :
  c <> amp -> referenceAt (String c s) = None.
Proof.
  intro H. unfold referenceAt. cbn [String.prefix].
  destruct (ascii_dec "&" c) as [E|_]; [|reflexivity].
  exfalso. apply H. now rewrite <- E.
Qed.

Lemma unescape_reference (c : ascii) (r : string) :
  htmlSpecial c = true ->
  unescapeFrom 0 (replacement c ++ r) = String c (unescapeFrom 0 r).
Proof.
  intro E.
  destruct (htmlSpecial_cases c E) as [->|[->|[->|[->| ->]]]];
    destruct r; reflexivity.
Qed.

Lemma unescape_escape (text r : string) :
  unescapeFrom 0 (escapeHtml text ++ r) = text ++ unescapeFrom 0 r.
Proof.
  induction text as [|c text IH]; [reflexivity|].
  cbn [escapeHtml]. destruct (htmlSpecial c) eqn:E.
  - rewrite append_assoc, unescape_reference by exact E.
    now rewrite IH.
  - destruct (htmlSpecial_false c E) as (Hamp & _).
    cbn [append unescapeFrom]. rewrite referenceAt_plain by exact Hamp.
    now rewrite IH.
Qed.

Lemma textContent_renderAll (segs : list segment) :
  Forall (fun seg => Forall (fun c => In c contractClasses) (classes seg))
         segs ->
  textContent (renderAll segs) = contents segs.
Proof.
  unfold textContent, unescapeHtml.
  induction segs as [|seg more IH]; intro H; [reflexivity|].
  inversion H as [|? ? Hseg Hmore]; subst. simpl.
  rewrite dropTags_render by exact Hseg.
  rewrite unescape_escape. now rewrite IH.
Qed.

(** The text of the segments does not depend on the style state. *)
Lemma emitted_contents (i : nat) (part : string) (st st' : state) :
  contents (emitted i part st) = contents (emitted i part st').
Proof.
  unfold emitted.
  repeat match goal with
         | |- context [if ?b then _ else _] => destruct b
         end; reflexivity.
Qed.

Lemma segmentsFrom_contents (parts : list string) :
  forall i st st',
    contents (segmentsFrom i parts st) = contents (segmentsFrom i parts st').
Proof.
  induction parts as [|part more IH]; intros i st st'; simpl; [reflexivity|].
  rewrite !contents_app. rewrite (emitted_contents i part st st').
  f_equal. apply IH.
Qed.

Lemma emitted_parity (i j : nat) (part : string) (st : state) :
  Nat.odd i = Nat.odd j -> emitted i part st = emitted j part st.
Proof. intro H. unfold emitted. rewrite !isCode_odd, H. reflexivity. Qed.

Lemma segmentsFrom_parity (parts : list string) :
  forall i j st,
    Nat.odd i = Nat.odd j -> segmentsFrom i parts st = segmentsFrom j parts st.
Proof.
  induction parts as [|part more IH]; intros i j st H; [reflexivity|].
  simpl. rewrite (emitted_parity i j), (step_parity i j) by exact H.
  f_equal. apply IH. rewrite !Nat.odd_succ, <- !Nat.negb_odd, H. reflexivity.
Qed.

Lemma emitted_text_contents (part : string) (st : state) :
  contents (emitted 0 part st) = part.
Proof.
  unfold emitted. simpl. destruct part; simpl; [reflexivity|].
  now rewrite append_nil_r.
Qed.

Lemma stripCodes_plain (c : ascii) (s : string) :
  (Ascii.eqb c amp && startsWithCodeChar s)%bool = false ->
  stripCodes (String c s) = String c (stripCodes s).
Proof.
  intro H. destruct s as [|d s]; [reflexivity|].
  cbn [stripCodes]. cbn in H.
  destruct (Ascii.eqb c amp && styleChar d)%bool eqn:E; [|reflexivity].
  apply andb_prop in E. destruct E as [E1 E2].
  apply styleChar_codeChar in E2. now rewrite E1, E2 in H.
Qed.

Lemma stripCodes_code (d : ascii) (s : string) :
  codeChar d = true ->
  stripCodes (String amp (String d s))
  = if styleChar d then stripCodes s
    else String amp (String d (stripCodes s)).
Proof.
  intro Hd.
  change (stripCodes (String amp (String d s)))
    with (if (Ascii.eqb amp amp && styleChar d)%bool
          then stripCodes s
          else String amp (stripCodes (String d s))).
  cbn [Ascii.eqb Bool.eqb amp andb].
  destruct (styleChar d); [reflexivity|].
  rewrite stripCodes_plain; [reflexivity|].
  replace (Ascii.eqb d amp) with false; [reflexivity|].
  symmetry. apply Ascii.eqb_neq. intros ->. discriminate Hd.
Qed.

Lemma segments_contents (text : string) :
  forall st, contents (segmentsFrom 0 (JS.split text) st) = stripCodes text.
Proof.
  induction text as [|c | c d s IHs IHds] using string_pair_ind; intro st.
  - reflexivity.
  - reflexivity.
  - destruct (Ascii.eqb c amp && codeChar d)%bool eqn:E.
    + cbn [JS.split]. rewrite E.
      apply andb_prop in E. destruct E as [Ec Ed].
      apply Ascii.eqb_eq in Ec. subst c.
      cbn [segmentsFrom]. rewrite !contents_app.
      rewrite emitted_text_contents.
      rewrite (segmentsFrom_parity _ 2 0) by reflexivity.
      rewrite IHs, stripCodes_code by exact Ed.
      rewrite <- (styleChar_spec d), Ed. cbn [andb append].
      unfold emitted. cbn [Nat.modulo Nat.divmod Nat.eqb fst snd Nat.sub].
      now destruct (JS.truthy (JS.get String.eqb formatMap
                                      (String amp (String d EmptyString)))).
    + rewrite split_text by exact E.
      rewrite stripCodes_plain by exact E.
      specialize (IHds st). 
      destruct (split_cons (String d s)) as (piece & more & Hsplit).
      rewrite Hsplit in *. cbn [JS.pushFront segmentsFrom] in *.
      rewrite contents_app in *. rewrite emitted_text_contents in *.
      cbn [append]. f_equal. rewrite <- IHds. f_equal.
      apply segmentsFrom_contents.
Qed.

(** What a reader of the output sees: the input without the codes that
    have a table entry. *)
Lemma textContent_output (text : string) :
  textContent (formatMessageBoardText text) = stripCodes text.
Proof.
  rewrite output_segments. unfold segments.
  rewrite textContent_renderAll.
  - apply segments_contents.
  - apply segmentsFrom_contract, wellStyled_initial.
Qed.

(** ** Text around a marker *)

Lemma stripCodes_style (c e : ascii) (s : string) :
  (Ascii.eqb c amp && styleChar e)%bool = true ->
  stripCodes (String c (String e s)) = stripCodes s.
Proof. intro H. simpl. now rewrite H. Qed.

Lemma stripCodes_keep (c e : ascii) (s : string) :
  (Ascii.eqb c amp && styleChar e)%bool = false ->
  stripCodes (String c (String e s)) = String c (stripCodes (String e s)).
Proof.
  intro H.
  change (stripCodes (String c (String e s)))
    with (if (Ascii.eqb c amp && styleChar e)%bool
          then stripCodes s
          else String c (stripCodes (String e s))).
  now rewrite H.
Qed.

Lemma stripCodes_app_marker (pre post : string) :
  stripCodes (pre ++ String amp post)
  = stripCodes pre ++ stripCodes (String amp post).
Proof.
  induction pre as [|c | c e pre IHpre IHepre] using string_pair_ind.
  - reflexivity.
  - cbn [append]. rewrite stripCodes_keep; [reflexivity|].
    apply andb_false_r.
  - cbn [append] in *.
    destruct (Ascii.eqb c amp && styleChar e)%bool eqn:E.
    + rewrite !stripCodes_style by exact E. exact IHpre.
    + rewrite !stripCodes_keep by exact E. now rewrite IHepre.
Qed.

Lemma pushFront_glue (c : ascii) (piece : string) (more l2 : list string) :
  l2 <> [] ->
  JS.pushFront c (glue (piece :: more) l2) = glue (String c piece :: more) l2.
Proof.
  intro H. destruct more as [|next more].
  - destruct l2 as [|first rest]; [contradiction | reflexivity].
  - reflexivity.
Qed.

Lemma split_not_nil (s : string) : JS.split s <> [].
Proof. destruct (split_cons s) as (piece & more & ->). discriminate. Qed.

(** Text that does not begin with a code character can be cut off: the
    pieces of the whole are those of the two halves, end to end. *)
Lemma split_app_text (a b : string) :
  startsWithCodeChar b = false ->
  JS.split (a ++ b) = glue (JS.split a) (JS.split b).
Proof.
  intro Hb.
  induction a as [|c | c e a IHa IHea] using string_pair_ind.
  - simpl. now destruct (split_cons b) as (piece & more & ->).
  - cbn [append]. rewrite split_text by (rewrite Hb; apply andb_false_r).
    simpl. now destruct (split_cons b) as (piece & more & ->).
  - cbn [append] in *. destruct (Ascii.eqb c amp && codeChar e)%bool eqn:E.
    + cbn [JS.split]. rewrite E, IHa.
      destruct (split_cons a) as (piece & more & ->). reflexivity.
    + rewrite (split_text c (String e a)) by exact E.
      rewrite split_text by exact E. rewrite IHea.
      destruct (split_cons (String e a)) as (piece & more & ->).
      apply pushFront_glue, split_not_nil.
Qed.

Lemma split_no_marker (text : string) :
  JS.includes text amp = false -> JS.split text = [text].
Proof.
  induction text as [|c text IH]; simpl JS.includes; intro H; [reflexivity|].
  apply orb_false_elim in H. destruct H as [Hc Htext].
  rewrite split_text by now rewrite Hc.
  now rewrite IH.
Qed.

(** The captured pieces are single characters of the code alphabet. *)
Lemma split_code_parts (text : string) :
  forall i part,
    nth_error (JS.split text) i = Some part ->
    Nat.odd i = true ->
    exists d, part = String d EmptyString /\ codeChar d = true.
Proof.
  induction text as [|c | c e s IHs IHes] using string_pair_ind;
    intros i part Hnth Hodd.
  - destruct i as [|[|i]]; discriminate.
  - destruct i as [|[|i]]; discriminate.
  - destruct (Ascii.eqb c amp && codeChar e)%bool eqn:E.
    + cbn [JS.split] in Hnth. rewrite E in Hnth.
      apply andb_prop in E. destruct E as [_ He].
      destruct i as [|[|i]]; [discriminate | |].
      * injection Hnth as <-. now exists e.
      * apply (IHs i); [exact Hnth | exact Hodd].
    + rewrite split_text in Hnth by exact E.
      destruct (split_cons (String e s)) as (piece & more & Hsplit).
      rewrite Hsplit in *. destruct i as [|i]; [discriminate|].
      apply (IHes (S i)); [exact Hnth | exact Hodd].
Qed.

(** The segments are those the turns of the loop emit, each with the
    state the loop had reached. *)
Lemma segmentsFrom_emitted (parts : list string) (seg : segment) :
  forall i st,
    In seg (segmentsFrom i parts st) ->
    exists k part,
      nth_error parts k = Some part /\
      In seg (emitted (i + k) part (loop i (firstn k parts) st)).
Proof.
  induction parts as [|part more IH]; intros i st H; simpl in H;
    [contradiction|].
  apply in_app_or in H. destruct H as [H|H].
  - exists 0, part. split; [reflexivity|]. now rewrite Nat.add_0_r.
  - destruct (IH _ _ H) as (k & part' & Hnth & Hin).
    exists (S k), part'. split; [exact Hnth|].
    now rewrite Nat.add_succ_r.
Qed.

(** ** The class names in the output *)

Lemma classNames_text (a r : string) :
  allChars notLt a = true ->
  classNamesFrom InText EmptyString (a ++ r)
  = classNamesFrom InText EmptyString r.
Proof.
  induction a as [|c a IH]; simpl; intro H; [reflexivity|].
  apply andb_prop in H. destruct H as [Hc Ha].
  unfold notLt in Hc. apply negb_true_iff in Hc. rewrite Hc. now apply IH.
Qed.

Lemma classNames_word (x r : string) :
  allChars wordChar x = true ->
  forall word,
    classNamesFrom InValue word (x ++ r)
    = classNamesFrom InValue (word ++ x) r.
Proof.
  induction x as [|c x IH]; simpl; intros H word.
  - now rewrite append_nil_r.
  - apply andb_prop in H. destruct H as [Hc Hx].
    unfold wordChar in Hc. apply andb_prop in Hc. destruct Hc as [Hq Hs].
    apply negb_true_iff in Hq, Hs. rewrite Hq, Hs.
    rewrite IH by exact Hx. now rewrite append_assoc.
Qed.

Lemma contract_word (c : string) :
  In c contractClasses ->
  allChars wordChar c = true /\ (c =? EmptyString) = false.
Proof.
  intro H. simpl in H.
  repeat (destruct H as [<-|H]; [split; reflexivity|]). contradiction.
Qed.

Lemma classNames_value (cls : list string) (r : string) :
  Forall (fun c => In c contractClasses) cls ->
  cls <> [] ->
  classNamesFrom InValue EmptyString (JS.join " " cls ++ String dquote r)
  = (cls ++ classNamesFrom InTag EmptyString r)%list.
Proof.
  unfold JS.join.
  induction cls as [|c cls IH]; intros H Hne; [contradiction|].
  inversion H as [|? ? Hc Hcls]; subst.
  destruct (contract_word c Hc) as [Hword Hfull].
  destruct cls as [|c' cls].
  - cbn [String.concat]. rewrite classNames_word by exact Hword.
    cbn [append classNamesFrom]. rewrite Ascii.eqb_refl.
    unfold endWord. now rewrite Hfull.
  - change (String.concat " " (c :: c' :: cls))
      with (c ++ " " ++ String.concat " " (c' :: cls)).
    rewrite append_assoc. rewrite classNames_word by exact Hword.
    cbn [append classNamesFrom Ascii.eqb Bool.eqb dquote].
    unfold endWord. rewrite Hfull.
    rewrite IH by (exact Hcls || discriminate). reflexivity.
Qed.

Lemma escapeHtml_notLt (text : string) :
  allChars notLt (escapeHtml text) = true.
Proof.
  pose proof (escapeHtml_plain text) as H.
  induction (escapeHtml text) as [|c e IH]; [reflexivity|].
  simpl in *. apply andb_prop in H. destruct H as [Hc He].
  unfold notAngle in Hc. apply andb_prop in Hc. destruct Hc as [Hlt _].
  unfold notLt. rewrite Hlt. now apply IH.
Qed.

Lemma classNames_render (seg : segment) (r : string) :
  Forall (fun c => In c contractClasses) (classes seg) ->
  classNamesFrom InText EmptyString (render seg ++ r)
  = (classes seg ++ classNamesFrom InText EmptyString r)%list.
Proof.
  intro H. unfold render. destruct (classes seg) as [|c cls] eqn:E.
  - simpl. apply classNames_text, escapeHtml_notLt.
  - cbn [List.length Nat.ltb Nat.leb]. unfold span.
    cbn [append classNamesFrom Ascii.eqb Bool.eqb lt gt dquote].
    rewrite !append_assoc. cbn [append].
    rewrite classNames_value by (exact H || discriminate).
    cbn [append classNamesFrom Ascii.eqb Bool.eqb lt gt dquote].
    rewrite append_assoc, classNames_text by apply escapeHtml_notLt.
    reflexivity.
Qed.

Lemma classNames_renderAll (segs : list segment) :
  Forall (fun seg => Forall (fun c => In c contractClasses) (classes seg))
         segs ->
  classNames (renderAll segs) = List.concat (List.map classes segs).
Proof.
  unfold classNames.
  induction segs as [|seg more IH]; intro H; [reflexivity|].
  inversion H as [|? ? Hseg Hmore]; subst. simpl.
  rewrite classNames_render by exact Hseg. now rewrite IH.
Qed.

(** The class names in the output are those of its segments. *)
Lemma classNames_output (text : string) :
  classNames (formatMessageBoardText text)
  = List.concat (List.map classes (segments text)).
Proof.
  rewrite output_segments. apply classNames_renderAll.
  apply segmentsFrom_contract, wellStyled_initial.
Qed.

(** ** The italic class *)

Lemma set_add_In (x c : string) (s : list string) :
  In x (JS.set_add c s) -> x = c \/ In x s.
Proof.
  unfold JS.set_add. destruct (existsb (String.eqb c) s); intro H.
  - now right.
  - apply in_app_or in H. destruct H as [H|[H|[]]]; [now right | now left].
Qed.

Lemma codesAt_split (text : string) : codesAt 0 (JS.split text).
Proof. intros k part Hnth Hodd. exact (split_code_parts text k part Hnth Hodd). Qed.

Lemma codesAt_tail (i : nat) (part : string) (more : list string) :
  codesAt i (part :: more) -> codesAt (S i) more.
Proof.
  intros H k p Hnth Hodd. apply (H (S k) p); [exact Hnth|].
  now rewrite Nat.add_succ_r.
Qed.

Lemma step_no_italic (i : nat) (part : string) (st : state) :
  (Nat.odd i = true -> exists d, part = String d EmptyString /\ codeChar d = true) ->
  ~ In "message-format-italic" (activeClasses st) ->
  ~ In "message-format-italic" (activeClasses (step i part st)).
Proof.
  intros Hcode Hst. destruct (Nat.odd i) eqn:Hodd.
  - destruct (Hcode eq_refl) as (d & -> & Hd).
    rewrite (step_parity i 1) by now rewrite Hodd.
    revert Hd. clear Hcode.
    destruct d as [[] [] [] [] [] [] [] []]; intro Hd; try discriminate Hd;
      cbn;
      first [ exact Hst
            | tauto
            | intro H; apply set_add_In in H;
              destruct H as [H|H]; [discriminate H | exact (Hst H)] ].
  - unfold step. rewrite isCode_odd, Hodd.
    now destruct (Nat.ltb 0 (String.length part)).
Qed.

Lemma segmentsFrom_no_italic (parts : list string) :
  forall i st,
    codesAt i parts ->
    wellStyled st ->
    ~ In "message-format-italic" (activeClasses st) ->
    Forall (fun seg => ~ In "message-format-italic" (classes seg))
           (segmentsFrom i parts st).
Proof.
  induction parts as [|part more IH]; intros i st Hparts Hwell Hst; simpl;
    [constructor|].
  apply Forall_app. split.
  - apply Forall_forall. intros seg Hin.
    rewrite (emitted_classes _ _ _ _ Hin).
    rewrite classesToApply_wellStyled by exact Hwell.
    intro H. apply in_app_or in H. destruct H as [H|H]; [exact (Hst H)|].
    destruct Hwell as [_ Hc]. rewrite Forall_forall in Hc.
    apply Hc in H. simpl in H.
    repeat (destruct H as [H|H]; [discriminate H|]). exact H.
  - apply IH.
    + exact (codesAt_tail _ _ _ Hparts).
    + now apply wellStyled_step.
    + apply step_no_italic; [|exact Hst].
      intro Hodd. apply (Hparts 0 part); [reflexivity|].
      now rewrite Nat.add_0_r.
Qed.

(** No input makes the output carry the italic class. *)
Lemma italic_never_emitted (text : string) :
  ~ In "message-format-italic" (classNames (formatMessageBoardText text)).
Proof.
  rewrite classNames_output. intro H.
  apply in_concat in H. destruct H as (cls & Hcls & Hc).
  apply in_map_iff in Hcls. destruct Hcls as (seg & <- & Hseg).
  pose proof (segmentsFrom_no_italic (JS.split text) 0 initial
                (codesAt_split text) wellStyled_initial (fun F => F)) as H.
  rewrite Forall_forall in H. exact (H seg Hseg Hc).
Qed.

(** ** Runs of color codes *)

Lemma colorDigit_codeChar (d : ascii) : colorDigit d = true -> codeChar d = true.
Proof. each_char d. Qed.

Lemma step_color_twice (st : state) (x d : ascii) :
  colorDigit x = true -> colorDigit d = true ->
  step 1 (String d EmptyString) (step 1 (String x EmptyString) st)
  = step 1 (String d EmptyString) st.
Proof. intros Hx Hd. now rewrite !step_color. Qed.

Lemma run_code_first (st : state) (d : ascii) (post : string) :
  codeChar d = true ->
  run st (String amp (String d post)) = run (step 1 (String d EmptyString) st) post.
Proof.
  intro Hd. rewrite <- (run_empty st) at 2.
  now rewrite <- run_code.
Qed.

Lemma run_colorRun (ds : list ascii) (d : ascii) (rest : string) :
  forallb colorDigit ds = true -> colorDigit d = true ->
  forall st,
    run st (colorRun (ds ++ [d]) ++ rest)
    = run (step 1 (String d EmptyString) st) rest.
Proof.
  intros Hds Hd. induction ds as [|x ds IH]; intro st.
  - simpl. apply run_code_first, colorDigit_codeChar, Hd.
  - simpl in Hds. apply andb_prop in Hds. destruct Hds as [Hx Hds].
    cbn [colorRun app append].
    rewrite run_code_first by now apply colorDigit_codeChar.
    rewrite IH by exact Hds. now rewrite step_color_twice.
Qed.

Lemma stateAt_color (text : string) (k : nat) :
  activeColorClass (stateAt text k) = None \/
  exists d, colorDigit d = true /\
            activeColorClass (stateAt text k)
            = Some ("message-color-" ++ String d EmptyString).
Proof.
  destruct (wellStyled_stateAt text k) as [_ Hc].
  destruct (activeColorClass (stateAt text k)) as [c|]; [right | now left].
  simpl in Hc. inversion Hc as [|? ? Hin _]; subst. simpl in Hin.
  destruct Hin as [<-|[<-|[<-|[<-|[<-|[<-|[]]]]]]].
  - now exists "0"%char.
  - now exists "1"%char.
  - now exists "2"%char.
  - now exists "3"%char.
  - now exists "4"%char.
  - now exists "5"%char.
Qed.

(** * The claims of the specification *)

(** C1. The specification has the code [&i] decoded as the format
    [message-format-italic].  The table has the entry, but the pattern of
    line 112 lists the capital [I] and not [i]: the two characters are
    never a code token.  On ["&iX"] the only piece is the whole text and
    the output is the escaped text; in any text, [&i] is part of the text
    the reader sees, and no output carries the italic class. *)
Theorem italic_code_left_as_text :
  JS.get String.eqb formatMap "&i" = Some "message-format-italic" /\
  codeChar "i" = false /\
  JS.split "&iX" = ["&iX"] /\
  formatMessageBoardText "&iX" = "&amp;iX" /\
  (forall pre post,
      textContent (formatMessageBoardText (pre ++ "&i" ++ post))
      = textContent (formatMessageBoardText pre)
        ++ "&i" ++ textContent (formatMessageBoardText post)) /\
  (forall text,
      ~ In "message-format-italic"
           (classNames (formatMessageBoardText text))).
Proof.
  do 4 (split; [reflexivity|]). split; [|exact italic_never_emitted].
  intros pre post. rewrite !textContent_output.
  change ("&i" ++ post) with (String amp (String "i" post)).
  rewrite stripCodes_app_marker.
  rewrite stripCodes_keep by reflexivity.
  rewrite stripCodes_plain by reflexivity.
  reflexivity.
Qed.

(** C2, as stated, fails: the pattern of line 112 accepts the digit 6 and
    the table has no entry for [&6], so the branch of lines 120-132 is
    taken. *)
Lemma code_token_without_entry :
  nth_error (JS.split "&6") 1 = Some "6" /\
  JS.get String.eqb formatMap "&6" = None /\
  formatMessageBoardText "&6" = "&amp;6".
Proof. repeat split. Qed.

(** C2, amended.  Every code token is the marker and one character of the
    code alphabet.  It has an entry in the table when the character is one
    of 0 to 5, b, k, l, m, n, r; it has none, and the branch for
    unrecognized codes is taken, when the character is one of 6 to 9, a,
    c to f, A, C to F, o. *)
Theorem code_tokens_and_table (text : string) (i : nat) (part : string) :
  nth_error (JS.split text) i = Some part ->
  Nat.odd i = true ->
  exists d,
    part = String d EmptyString /\
    codeChar d = true /\
    (styleChar d = true ->
     exists className,
       JS.get String.eqb formatMap (String amp part) = Some className /\
       In className contractClasses) /\
    (In d unstyledChars ->
     JS.get String.eqb formatMap (String amp part) = None /\
     forall st, step i part st = appendText st (String amp part)).
Proof.
  intros Hnth Hodd.
  destruct (split_code_parts text i part Hnth Hodd) as (d & -> & Hd).
  exists d. split; [reflexivity|]. split; [exact Hd|]. split.
  - clear. destruct d as [[] [] [] [] [] [] [] []]; intro H;
      try discriminate H; eexists; (split; [reflexivity | simpl; tauto]).
  - intro H. split.
    + simpl in H.
      repeat (destruct H as [<-|H]; [reflexivity|]). contradiction.
    + intro st. rewrite (step_parity i 1) by now rewrite Hodd.
      apply step_unmapped. simpl in H. simpl.
      repeat (destruct H as [<-|H]; [tauto|]). contradiction.
Qed.

Lemma code_tokens_and_table_witness :
  exists d,
    "6" = String d EmptyString /\
    codeChar d = true /\
    (styleChar d = true ->
     exists className,
       JS.get String.eqb formatMap (String amp "6") = Some className /\
       In className contractClasses) /\
    (In d unstyledChars ->
     JS.get String.eqb formatMap (String amp "6") = None /\
     forall st, step 1 "6" st = appendText st (String amp "6")).
Proof. apply (code_tokens_and_table "&6x&1y" 1 "6"); reflexivity. Defined.

(** C3, as stated, fails: the codes are taken out of the text.  The text
    content of the output for ["&1Hello"] is ["Hello"]. *)
Lemma text_content_without_code :
  formatMessageBoardText "&1Hello"
  = "<span class=" ++ String dquote "message-color-1"
      ++ String dquote ">Hello</span>" /\
  textContent (formatMessageBoardText "&1Hello") = "Hello" /\
  textContent (formatMessageBoardText "&1Hello") <> "&1Hello".
Proof. repeat split. discriminate. Qed.

(** C3, amended.  For every input, the output with its tags dropped and
    its escaping reversed is the input without the codes that have a table
    entry (the marker followed by one of 0 to 5, b, k, l, m, n, r);
    everything else is kept, in its order. *)
Theorem text_content_is_input_without_codes (text : string) :
  textContent (formatMessageBoardText text) = stripCodes text.
Proof.
  rewrite output_segments.
  assert (Hclasses :
            Forall (fun seg =>
                      Forall (fun c => In c contractClasses) (classes seg))
                   (segments text)).
  { apply segmentsFrom_contract, wellStyled_initial. }
  rewrite (textContent_renderAll _ Hclasses).
  apply segments_contents.
Qed.

(** C4, as stated, fails for the follower: in ["&&1"] the first marker is
    followed by a character outside the alphabet, the second marker, and
    that follower is the marker of the code [&1], which is taken out. *)
Lemma marker_follower_consumed :
  codeChar amp = false /\
  JS.split "&&1" = ["&"; "1"; EmptyString] /\
  formatMessageBoardText "&&1" = "&amp;" /\
  textContent (formatMessageBoardText "&&1")
  <> textContent (formatMessageBoardText EmptyString)
     ++ String amp (String amp (textContent (formatMessageBoardText "1"))).
Proof. repeat split. discriminate. Qed.

(** C4, amended.  A marker that is not followed by a character of the code
    alphabet (the last character of the input, or one followed by another
    character) stays in a piece of text, and the reader of the output finds
    it where it was: between what is shown of the text before it and what
    is shown of the text after it.  The character after it is kept with it
    unless that character is itself the marker of a code. *)
Theorem dangling_marker_kept (pre post : string) :
  startsWithCodeChar post = false ->
  JS.split (pre ++ String amp post)
  = glue (JS.split pre) (JS.pushFront amp (JS.split post)) /\
  textContent (formatMessageBoardText (pre ++ String amp post))
  = textContent (formatMessageBoardText pre)
    ++ String amp (textContent (formatMessageBoardText post)) /\
  forall d post',
    post = String d post' ->
    startsWithCode post = false ->
    textContent (formatMessageBoardText (pre ++ String amp post))
    = textContent (formatMessageBoardText pre)
      ++ String amp (String d (textContent (formatMessageBoardText post'))).
Proof.
  intro Hpost.
  assert (Hkeep : stripCodes (String amp post) = String amp (stripCodes post)).
  { apply stripCodes_plain. rewrite Hpost. apply andb_false_r. }
  split; [|split].
  - rewrite split_app_text by reflexivity.
    rewrite (split_text amp post) by (rewrite Hpost; apply andb_false_r).
    reflexivity.
  - rewrite !textContent_output, stripCodes_app_marker. now rewrite Hkeep.
  - intros d post' -> Hcode.
    rewrite !textContent_output, stripCodes_app_marker, Hkeep.
    now rewrite stripCodes_plain by exact Hcode.
Qed.

Lemma dangling_marker_kept_witness :
  JS.split ("a&1b" ++ String amp " c&")
  = glue (JS.split "a&1b") (JS.pushFront amp (JS.split " c&")) /\
  textContent (formatMessageBoardText ("a&1b" ++ String amp " c&"))
  = textContent (formatMessageBoardText "a&1b")
    ++ String amp (textContent (formatMessageBoardText " c&")) /\
  forall d post',
    " c&" = String d post' ->
    startsWithCode " c&" = false ->
    textContent (formatMessageBoardText ("a&1b" ++ String amp " c&"))
    = textContent (formatMessageBoardText "a&1b")
      ++ String amp (String d (textContent (formatMessageBoardText post'))).
Proof. apply (dangling_marker_kept "a&1b" " c&"). reflexivity. Defined.

(** C5.  On ["&1&2Text"] the output is one segment, for ["Text"], with
    the single class [message-color-2].  In any text, a run of color codes
    decodes as its last code alone.  At every point of a decode the active
    color is unset or one of the six color classes. *)
Theorem color_codes_exclusive :
  formatMessageBoardText "&1&2Text"
  = "<span class=" ++ String dquote "message-color-2"
      ++ String dquote ">Text</span>" /\
  segments "&1&2Text"
  = [ {| classes := ["message-color-2"]; content := "Text" |} ] /\
  (forall pre ds d rest,
      forallb colorDigit ds = true -> colorDigit d = true ->
      formatMessageBoardText (pre ++ colorRun (ds ++ [d]) ++ rest)
      = formatMessageBoardText (pre ++ colorRun [d] ++ rest)) /\
  (forall st x d,
      colorDigit x = true -> colorDigit d = true ->
      step 1 (String d EmptyString) (step 1 (String x EmptyString) st)
      = {| formattedHtml := formattedHtml st;
           activeClasses := activeClasses st;
           activeColorClass := Some ("message-color-" ++ String d EmptyString) |}) /\
  (forall text k,
      activeColorClass (stateAt text k) = None \/
      exists d, colorDigit d = true /\
                activeColorClass (stateAt text k)
                = Some ("message-color-" ++ String d EmptyString)).
Proof.
  split; [reflexivity|]. split; [reflexivity|]. split; [|split].
  - intros pre ds d rest Hds Hd. unfold formatMessageBoardText. f_equal.
    fold (run initial (pre ++ colorRun (ds ++ [d]) ++ rest)).
    fold (run initial (pre ++ colorRun [d] ++ rest)).
    destruct ds as [|x ds]; [reflexivity|].
    simpl in Hds. apply andb_prop in Hds. destruct Hds as [Hx Hds].
    cbn [colorRun app append].
    rewrite !run_code by now apply colorDigit_codeChar.
    rewrite run_colorRun by assumption.
    now rewrite step_color_twice.
  - intros st x d Hx Hd. now rewrite !step_color.
  - apply stateAt_color.
Qed.

Lemma color_codes_exclusive_witness :
  formatMessageBoardText ("a&lb" ++ colorRun (["3"; "0"]%char ++ ["4"]%char)%list ++ "c")
  = formatMessageBoardText ("a&lb" ++ colorRun ["4"]%char ++ "c").
Proof.
  apply (proj1 (proj2 (proj2 color_codes_exclusive))); reflexivity.
Defined.

(** C6.  On ["&lBold&rPlain"] the output is a segment for ["Bold"] with
    the class [message-format-bold], then the text ["Plain"] without a
    wrapper.  A reset code empties the active formats and unsets the
    active color in one turn of the loop and appends nothing, wherever it
    stands in the input.  The class [message-format-reset] is never among
    the active formats. *)
Theorem reset_clears_state :
  formatMessageBoardText "&lBold&rPlain"
  = "<span class=" ++ String dquote "message-format-bold"
      ++ String dquote ">Bold</span>Plain" /\
  segments "&lBold&rPlain"
  = [ {| classes := ["message-format-bold"]; content := "Bold" |};
      {| classes := []; content := "Plain" |} ] /\
  (forall st i,
      Nat.odd i = true ->
      step i "r" st
      = {| formattedHtml := formattedHtml st;
           activeClasses := [];
           activeColorClass := None |}) /\
  (forall pre post,
      run initial (pre ++ "&r" ++ post)
      = run {| formattedHtml := formattedHtml (run initial pre);
               activeClasses := [];
               activeColorClass := None |} post) /\
  (forall text k,
      ~ In "message-format-reset" (activeClasses (stateAt text k))).
Proof.
  split; [reflexivity|]. split; [reflexivity|]. split; [|split].
  - intros st i Hodd. rewrite (step_parity i 1) by now rewrite Hodd.
    apply step_reset.
  - intros pre post. change ("&r" ++ post) with (String amp (String "r" post)).
    rewrite run_code by reflexivity. now rewrite step_reset.
  - intros text k Hin.
    destruct (wellStyled_stateAt text k) as [Hf _].
    rewrite Forall_forall in Hf. apply Hf in Hin. simpl in Hin.
    repeat (destruct Hin as [Hin|Hin]; [discriminate Hin|]). exact Hin.
Qed.

Lemma reset_clears_state_witness :
  step 3 "r" {| formattedHtml := "x";
                activeClasses := ["message-format-bold"];
                activeColorClass := Some "message-color-1" |}
  = {| formattedHtml := "x"; activeClasses := []; activeColorClass := None |}.
Proof.
  apply (proj1 (proj2 (proj2 reset_clears_state))
               {| formattedHtml := "x";
                  activeClasses := ["message-format-bold"];
                  activeColorClass := Some "message-color-1" |} 3).
  reflexivity.
Defined.

(** C7.  On ["&l&nBoth"] the output is one segment for ["Both"] whose
    class attribute is [message-format-bold message-format-underline].
    The output is its segments rendered in order, and the class list of
    every segment is the active formats, in the order they were added,
    followed by the active color if there is one, as they are when the
    segment is emitted.  A format code adds its class at the end of the
    active formats, and does nothing when the class is already there. *)
Theorem formats_stack_in_order :
  formatMessageBoardText "&l&nBoth"
  = "<span class="
      ++ String dquote "message-format-bold message-format-underline"
      ++ String dquote ">Both</span>" /\
  segments "&l&nBoth"
  = [ {| classes := ["message-format-bold"; "message-format-underline"];
         content := "Both" |} ] /\
  (forall text, formatMessageBoardText text = renderAll (segments text)) /\
  (forall text seg,
      In seg (segments text) ->
      exists k part,
        nth_error (JS.split text) k = Some part /\
        In seg (emitted k part (stateAt text k)) /\
        classes seg
        = (activeClasses (stateAt text k)
           ++ colorPart (activeColorClass (stateAt text k)))%list) /\
  (forall st d className,
      JS.get String.eqb formatMap (String amp (String d EmptyString))
      = Some className ->
      In className formatClasses ->
      (In className (activeClasses st) ->
       step 1 (String d EmptyString) st = st) /\
      (~ In className (activeClasses st) ->
       step 1 (String d EmptyString) st
       = {| formattedHtml := formattedHtml st;
            activeClasses := (activeClasses st ++ [className])%list;
            activeColorClass := activeColorClass st |})).
Proof.
  split; [reflexivity|]. split; [reflexivity|]. split; [|split].
  - apply output_segments.
  - intros text seg Hin.
    destruct (segmentsFrom_emitted _ _ _ _ Hin) as (k & part & Hnth & Hem).
    exists k, part. simpl in Hem. fold (stateAt text k) in Hem.
    split; [exact Hnth|]. split; [exact Hem|].
    rewrite (emitted_classes _ _ _ _ Hem).
    apply classesToApply_wellStyled, wellStyled_stateAt.
  - intros st d className Hget Hfmt.
    rewrite (step_format st d className Hget Hfmt). split; intro Hin.
    + rewrite set_add_present by exact Hin. now destruct st.
    + now rewrite set_add_absent by exact Hin.
Qed.

Lemma formats_stack_in_order_witness :
  step 1 "l" {| formattedHtml := "x";
                activeClasses := ["message-format-underline";
                                  "message-format-bold"];
                activeColorClass := None |}
  = {| formattedHtml := "x";
       activeClasses := ["message-format-underline"; "message-format-bold"];
       activeColorClass := None |}.
Proof.
  apply (proj1 (proj2 (proj2 (proj2 (proj2 formats_stack_in_order)))
                      {| formattedHtml := "x";
                         activeClasses := ["message-format-underline";
                                           "message-format-bold"];
                         activeColorClass := None |}
                      "l"%char "message-format-bold" eq_refl
                      (or_introl eq_refl))).
  simpl. right. left. reflexivity.
Defined.

(** C8.  A text without the marker decodes to its escaped form, and
    escaping replaces each of the five characters by its reference and
    copies every other character. *)
Theorem no_code_identity :
  (forall text,
      JS.includes text amp = false ->
      formatMessageBoardText text = escapeHtml text) /\
  escapeHtml EmptyString = EmptyString /\
  (forall c rest,
      escapeHtml (String c rest) = charReference c ++ escapeHtml rest).
Proof.
  split; [|split; [reflexivity|]].
  - intros text H. unfold formatMessageBoardText.
    rewrite (split_no_marker text H). simpl. unfold step. simpl.
    now destruct text.
  - intros c rest. destruct c as [[] [] [] [] [] [] [] []]; reflexivity.
Qed.

Lemma no_code_identity_witness :
  formatMessageBoardText "a <b> 'c'" = escapeHtml "a <b> 'c'".
Proof. apply (proj1 no_code_identity). reflexivity. Defined.

(** C9.  Every class name in the tags of the output is one of the twelve
    class names of the styling contract. *)
Theorem classes_within_contract (text c : string) :
  In c (classNames (formatMessageBoardText text)) -> In c contractClasses.
Proof.
  rewrite classNames_output. intro H.
  apply in_concat in H. destruct H as (cls & Hcls & Hc).
  apply in_map_iff in Hcls. destruct Hcls as (seg & <- & Hseg).
  pose proof (segmentsFrom_contract (JS.split text) 0 initial
                                    wellStyled_initial) as H.
  rewrite Forall_forall in H. specialize (H seg Hseg).
  rewrite Forall_forall in H. now apply H.
Qed.

Lemma classes_within_contract_witness :
  In "message-color-1" contractClasses.
Proof.
  apply (classes_within_contract "&l&1Hello <b class=x>" "message-color-1").
  vm_compute. right. left. reflexivity.
Defined.

(** C10.  The code characters that the pattern accepts and the table has
    no entry for are 6 to 9, a, c to f, A to F, I and o.  On such a code
    the loop appends the marker and the character, escaped, wrapped in the
    classes active at that point (or bare when none is), and changes
    neither the active color nor the active formats. *)
Theorem unmapped_code_is_literal :
  (forall d,
      In d unmappedChars <->
      codeChar d = true /\
      JS.get String.eqb formatMap (String amp (String d EmptyString)) = None) /\
  (forall st i d,
      In d unmappedChars -> Nat.odd i = true ->
      step i (String d EmptyString) st
      = {| formattedHtml :=
             formattedHtml st
             ++ render {| classes := classesToApply st;
                          content := String amp (String d EmptyString) |};
           activeClasses := activeClasses st;
           activeColorClass := activeColorClass st |}) /\
  (forall pre d post,
      In d unmappedChars ->
      let st := run initial pre in
      run initial (pre ++ String amp (String d post))
      = run {| formattedHtml :=
                 formattedHtml st
                 ++ render {| classes :=
                                (activeClasses st
                                 ++ colorPart (activeColorClass st))%list;
                              content := String amp (String d EmptyString) |};
               activeClasses := activeClasses st;
               activeColorClass := activeColorClass st |} post).
Proof.
  assert (Hstep : forall st d,
             In d unmappedChars ->
             step 1 (String d EmptyString) st
             = {| formattedHtml :=
                    formattedHtml st
                    ++ render {| classes := classesToApply st;
                                 content := String amp (String d EmptyString) |};
                  activeClasses := activeClasses st;
                  activeColorClass := activeColorClass st |}).
  { intros st d Hd. rewrite step_unmapped by exact Hd.
    rewrite <- appendText_html. reflexivity. }
  split; [apply unmapped_spec|]. split.
  - intros st i d Hd Hodd. rewrite (step_parity i 1) by now rewrite Hodd.
    now apply Hstep.
  - intros pre d post Hd st.
    rewrite run_code by now apply unmapped_spec.
    rewrite Hstep by exact Hd. fold st.
    rewrite classesToApply_wellStyled; [reflexivity|].
    apply wellStyled_run, wellStyled_initial.
Qed.

Lemma unmapped_code_is_literal_witness :
  step 1 "6" {| formattedHtml := "x";
                activeClasses := ["message-format-bold"];
                activeColorClass := Some "message-color-1" |}
  = {| formattedHtml :=
         "x<span class="
           ++ String dquote "message-format-bold message-color-1"
           ++ String dquote ">&amp;6</span>";
       activeClasses := ["message-format-bold"];
       activeColorClass := Some "message-color-1" |}.
Proof.
  apply (proj1 (proj2 unmapped_code_is_literal)
               {| formattedHtml := "x";
                  activeClasses := ["message-format-bold"];
                  activeColorClass := Some "message-color-1" |}
               1 "6"%char).
  - simpl. left. reflexivity.
  - reflexivity.
Defined.



(** * Further properties of the script *)

(** ** [escapeHtml] *)

Lemma escapeHtml_app (a b : string) :
  escapeHtml (a ++ b) = escapeHtml a ++ escapeHtml b.
Proof.
  induction a as [|c a IH]; [reflexivity|].
  cbn [append escapeHtml]. rewrite IH.
  destruct (htmlSpecial c); [now rewrite append_assoc | reflexivity].
Qed.

Lemma append_length (a b : string) :
  String.length (a ++ b) = String.length a + String.length b.
Proof. induction a as [|c a IH]; simpl; [reflexivity | now rewrite IH]. Qed.

Lemma replacement_length (c : ascii) :
  htmlSpecial c = true ->
  4 <= String.length (replacement c) <= 6.
Proof.
  intro E.
  destruct (htmlSpecial_cases c E) as [->|[->|[->|[->| ->]]]];
    cbn; split; repeat constructor.
Qed.

Lemma escapeHtml_length_ge (text : string) :
  String.length text <= String.length (escapeHtml text).
Proof.
  induction text as [|c text IH]; [constructor|].
  cbn [escapeHtml]. destruct (htmlSpecial c) eqn:E.
  - rewrite append_length. destruct (replacement_length c E) as [Hlo _].
    simpl. lia.
  - simpl. lia.
Qed.

Lemma cut_at_marker (x : ascii) (a pre post : string) :
  String x a = pre ++ String amp post ->
  x <> amp ->
  exists pre', pre = String x pre' /\ a = pre' ++ String amp post.
Proof.
  intros H Hx. destruct pre as [|p pre'].
  - simpl in H. injection H as H _. contradiction.
  - simpl in H. injection H as -> ->. now exists pre'.
Qed.

Lemma referenceAt_replacement (c : ascii) (r : string) :
  htmlSpecial c = true -> referenceAt (replacement c ++ r) <> None.
Proof.
  intro E.
  destruct (htmlSpecial_cases c E) as [->|[->|[->|[->| ->]]]];
    destruct r; discriminate.
Qed.

Lemma escapeHtml_ampersands (text : string) :
  forall pre post,
    escapeHtml text = pre ++ String amp post ->
    referenceAt (String amp post) <> None.
Proof.
  induction text as [|c text IH]; intros pre post H.
  - destruct pre; discriminate H.
  - cbn [escapeHtml] in H. destruct (htmlSpecial c) eqn:E.
    + destruct pre as [|p pre].
      * cbn [append] in H. rewrite <- H. now apply referenceAt_replacement.
      * assert (Hcut : exists pre', escapeHtml text = pre' ++ String amp post).
        { destruct (htmlSpecial_cases c E) as [->|[->|[->|[->| ->]]]];
            cbn in H; injection H as _ H;
            repeat (apply cut_at_marker in H; [|discriminate];
                    destruct H as (? & -> & H));
            eauto. }
        destruct Hcut as (pre' & Hcut). exact (IH _ _ Hcut).
    + destruct (htmlSpecial_false c E) as (Hamp & _).
      apply cut_at_marker in H; [|exact Hamp].
      destruct H as (pre' & -> & H). exact (IH _ _ H).
Qed.

Lemma unescape_escapeHtml (text : string) :
  unescapeHtml (escapeHtml text) = text.
Proof.
  unfold unescapeHtml.
  rewrite <- (append_nil_r (escapeHtml text)), unescape_escape.
  apply append_nil_r.
Qed.

Lemma escapeHtml_plain_id (text : string) :
  allChars (fun c => negb (htmlSpecial c)) text = true ->
  escapeHtml text = text.
Proof.
  induction text as [|c text IH]; simpl; intro H; [reflexivity|].
  apply andb_prop in H. destruct H as [Hc Htext].
  apply negb_true_iff in Hc. rewrite Hc. now rewrite IH.
Qed.

Lemma escapeHtml_id_plain (text : string) :
  escapeHtml text = text ->
  allChars (fun c => negb (htmlSpecial c)) text = true.
Proof.
  induction text as [|c text IH]; intro H; [reflexivity|].
  cbn [escapeHtml] in H. simpl. destruct (htmlSpecial c) eqn:E.
  - exfalso.
    pose proof (f_equal String.length H) as Hlen.
    rewrite append_length in Hlen. simpl in Hlen.
    destruct (replacement_length c E) as [Hlo _].
    pose proof (escapeHtml_length_ge text) as Hge.
    lia.
  - injection H as H. simpl. now apply IH.
Qed.

(** X1.  Escaping loses nothing: reversing it gives the text back, so two
    different texts never escape to the same string. *)
Theorem escapeHtml_round_trip :
  (forall text, unescapeHtml (escapeHtml text) = text) /\
  (forall a b, escapeHtml a = escapeHtml b -> a = b).
Proof.
  split; [exact unescape_escapeHtml|].
  intros a b H.
  rewrite <- (unescape_escapeHtml a), <- (unescape_escapeHtml b).
  now rewrite H.
Qed.

Lemma escapeHtml_round_trip_witness : "a<b" = "a<b".
Proof. apply (proj2 escapeHtml_round_trip "a<b" "a<b"). reflexivity. Defined.

(** X2.  The escaped text holds no less-than sign, greater-than sign,
    double quote or single quote, and every ampersand in it begins one of
    the five character references. *)
Theorem escapeHtml_is_markup_text (text : string) :
  allChars markupSafe (escapeHtml text) = true /\
  forall pre post,
    escapeHtml text = pre ++ String amp post ->
    referenceAt (String amp post) <> None.
Proof.
  split; [|apply escapeHtml_ampersands].
  induction text as [|c text IH]; [reflexivity|].
  cbn [escapeHtml]. destruct (htmlSpecial c) eqn:E.
  - rewrite allChars_app, IH.
    destruct (htmlSpecial_cases c E) as [->|[->|[->|[->| ->]]]]; reflexivity.
  - cbn [allChars]. rewrite IH, andb_true_r.
    unfold htmlSpecial in E.
    repeat (apply orb_false_elim in E; destruct E as [E ?]).
    unfold markupSafe.
    repeat match goal with H : Ascii.eqb _ _ = false |- _ => rewrite H; clear H end.
    reflexivity.
Qed.

Lemma escapeHtml_is_markup_text_witness :
  referenceAt (String amp "lt;b&gt;") <> None.
Proof.
  apply (proj2 (escapeHtml_is_markup_text "a<b>") "a" "lt;b&gt;").
  reflexivity.
Defined.

(** X3.  Escaping two texts one after the other is escaping their
    concatenation. *)
Theorem escapeHtml_concatenation (a b : string) :
  escapeHtml (a ++ b) = escapeHtml a ++ escapeHtml b.
Proof. apply escapeHtml_app. Qed.

(** X4.  Escaping leaves a text unchanged exactly when the text has none
    of the five characters, and escaping an escaped text changes it again
    exactly when the text has one of them: the function is not
    idempotent. *)
Theorem escapeHtml_fixed_points (text : string) :
  (escapeHtml text = text <->
   allChars (fun c => negb (htmlSpecial c)) text = true) /\
  (escapeHtml (escapeHtml text) = escapeHtml text <->
   allChars (fun c => negb (htmlSpecial c)) text = true).
Proof.
  split; split.
  - apply escapeHtml_id_plain.
  - apply escapeHtml_plain_id.
  - intro H. apply escapeHtml_id_plain.
    apply (f_equal unescapeHtml) in H.
    now rewrite !unescape_escapeHtml in H.
  - intro H. rewrite !(escapeHtml_plain_id text H). reflexivity.
Qed.

(** X5.  The escaped text is at least as long as the text and at most
    six times as long. *)
Theorem escapeHtml_length (text : string) :
  String.length text <= String.length (escapeHtml text) /\
  String.length (escapeHtml text) <= 6 * String.length text.
Proof.
  split; [apply escapeHtml_length_ge|].
  induction text as [|c text IH]; [constructor|].
  cbn [escapeHtml]. destruct (htmlSpecial c) eqn:E.
  - rewrite append_length. destruct (replacement_length c E) as [_ Hhi].
    cbn [String.length]. lia.
  - cbn [String.length]. lia.
Qed.

(** ** The loop, one state against another *)

Lemma classesToApply_sameStyle (st st' : state) :
  sameStyle st st' -> classesToApply st = classesToApply st'.
Proof. intros [Hf Hc]. unfold classesToApply. now rewrite Hf, Hc. Qed.

Lemma emitted_sameStyle (i : nat) (part : string) (st st' : state) :
  sameStyle st st' -> emitted i part st = emitted i part st'.
Proof.
  intro H. unfold emitted. now rewrite (classesToApply_sameStyle st st' H).
Qed.

Lemma step_sameStyle (i : nat) (part : string) (st st' : state) :
  sameStyle st st' -> sameStyle (step i part st) (step i part st').
Proof.
  intros [Hf Hc]. unfold step, sameStyle.
  repeat match goal with
         | |- context [if ?b then _ else _] => destruct b
         | |- context [match ?o with Some _ => _ | None => _ end] => destruct o
         end; simpl; rewrite ?Hf, ?Hc; split; reflexivity || assumption.
Qed.

Lemma segmentsFrom_sameStyle (parts : list string) :
  forall i st st',
    sameStyle st st' -> segmentsFrom i parts st = segmentsFrom i parts st'.
Proof.
  induction parts as [|part more IH]; intros i st st' H; [reflexivity|].
  simpl. rewrite (emitted_sameStyle i part st st' H). f_equal.
  apply IH. now apply step_sameStyle.
Qed.

(** The output from a state is the output so far, then what the same
    style would give from an empty output. *)
Lemma run_html (st : state) (text : string) :
  formattedHtml (run st text)
  = formattedHtml st
    ++ formattedHtml (run {| formattedHtml := EmptyString;
                             activeClasses := activeClasses st;
                             activeColorClass := activeColorClass st |} text).
Proof.
  unfold run. rewrite !loop_html. cbn [formattedHtml append]. do 2 f_equal.
  apply segmentsFrom_sameStyle. now split.
Qed.

(** ** The states a decode reaches *)

Lemma set_add_idem (x : string) (s : list string) :
  JS.set_add x (JS.set_add x s) = JS.set_add x s.
Proof.
  destruct (in_dec string_dec x s) as [Hin|Hout].
  - now rewrite !(set_add_present x s Hin).
  - rewrite (set_add_absent x s Hout).
    apply set_add_present. apply in_or_app. right. now left.
Qed.

Lemma NoDup_set_add (x : string) (s : list string) :
  NoDup s -> NoDup (JS.set_add x s).
Proof.
  intro H. unfold JS.set_add. destruct (existsb (String.eqb x) s) eqn:E;
    [exact H|].
  apply NoDup_app; [exact H | repeat constructor; intros [] |].
  intros a Ha [Hx|[]]. subst a.
  assert (Hex : existsb (String.eqb x) s = true).
  { apply existsb_exists. exists x. split; [exact Ha | apply String.eqb_refl]. }
  rewrite E in Hex. discriminate Hex.
Qed.

Lemma reachableStyle_initial : reachableStyle initial.
Proof. repeat split; constructor. Qed.

Lemma step_reachable (i : nat) (part : string) (st : state) :
  (Nat.odd i = true ->
   exists d, part = String d EmptyString /\ codeChar d = true) ->
  reachableStyle st -> reachableStyle (step i part st).
Proof.
  intros Hcode Hst. destruct (Nat.odd i) eqn:Hodd.
  - destruct (Hcode eq_refl) as (d & -> & Hd).
    rewrite (step_parity i 1) by now rewrite Hodd.
    revert Hd. clear Hcode. destruct Hst as (Hf & Hn & Hc).
    destruct d as [[] [] [] [] [] [] [] []]; intro Hd; try discriminate Hd;
      (split; [|split]); cbn;
      first [ assumption
            | apply Forall_nil
            | apply NoDup_nil
            | apply NoDup_set_add; exact Hn
            | apply Forall_set_add;
              [split; [simpl; tauto | simpl; intuition discriminate] | exact Hf]
            | constructor; [simpl; tauto | constructor] ].
  - unfold step. rewrite isCode_odd, Hodd.
    now destruct (Nat.ltb 0 (String.length part)).
Qed.

Lemma loop_reachable (parts : list string) :
  forall i st,
    codesAt i parts -> reachableStyle st -> reachableStyle (loop i parts st).
Proof.
  induction parts as [|part more IH]; intros i st Hparts Hst; [exact Hst|].
  simpl. apply IH; [exact (codesAt_tail _ _ _ Hparts)|].
  apply step_reachable; [|exact Hst].
  intro Hodd. apply (Hparts 0 part); [reflexivity | now rewrite Nat.add_0_r].
Qed.

Lemma segmentsFrom_reachable (parts : list string) :
  forall i st,
    codesAt i parts -> reachableStyle st ->
    Forall (fun seg => exists st', reachableStyle st' /\
                                   classes seg = classesToApply st')
           (segmentsFrom i parts st).
Proof.
  induction parts as [|part more IH]; intros i st Hparts Hst; simpl;
    [constructor|].
  apply Forall_app. split.
  - apply Forall_forall. intros seg Hin. exists st.
    split; [exact Hst | exact (emitted_classes _ _ _ _ Hin)].
  - apply IH; [exact (codesAt_tail _ _ _ Hparts)|].
    apply step_reachable; [|exact Hst].
    intro Hodd. apply (Hparts 0 part); [reflexivity | now rewrite Nat.add_0_r].
Qed.

Lemma segments_reachable (text : string) (seg : segment) :
  In seg (segments text) ->
  exists st, reachableStyle st /\ classes seg = classesToApply st.
Proof.
  intro H.
  pose proof (segmentsFrom_reachable (JS.split text) 0 initial
                (codesAt_split text) reachableStyle_initial) as Hall.
  rewrite Forall_forall in Hall. exact (Hall seg H).
Qed.

Lemma classesToApply_reachable (st : state) :
  reachableStyle st ->
  classesToApply st
  = (activeClasses st ++ colorPart (activeColorClass st))%list.
Proof.
  intros (_ & _ & Hc). unfold classesToApply.
  destruct (activeColorClass st) as [c|]; [|reflexivity].
  simpl in *. inversion Hc as [|? ? Hin _]; subst. simpl in Hin.
  repeat (destruct Hin as [<-|Hin]; [reflexivity|]). contradiction.
Qed.

Lemma emitted_content (i : nat) (part : string) (st : state) (seg : segment) :
  In seg (emitted i part st) -> content seg <> EmptyString.
Proof.
  unfold emitted. intro H.
  destruct (Nat.eqb (i mod 2) 1).
  - destruct (negb _); [|contradiction].
    destruct H as [<-|[]]. discriminate.
  - destruct part as [|c part]; [contradiction|].
    destruct H as [<-|[]]. discriminate.
Qed.

Lemma segments_content (text : string) (seg : segment) :
  In seg (segments text) -> content seg <> EmptyString.
Proof.
  intro H.
  destruct (segmentsFrom_emitted _ _ _ _ H) as (k & part & _ & Hin).
  exact (emitted_content _ _ _ _ Hin).
Qed.

Lemma step_again (st : state) (d : ascii) :
  styleChar d = true ->
  step 1 (String d EmptyString) (step 1 (String d EmptyString) st)
  = step 1 (String d EmptyString) st.
Proof.
  revert st.
  destruct d as [[] [] [] [] [] [] [] []]; intros st H; try discriminate H;
    cbn; rewrite ?set_add_idem; reflexivity.
Qed.

Lemma set_add_swap_color (st : state) (c f : ascii) (className : string) :
  colorDigit c = true ->
  JS.get String.eqb formatMap (String amp (String f EmptyString))
  = Some className ->
  In className formatClasses ->
  step 1 (String c EmptyString) (step 1 (String f EmptyString) st)
  = step 1 (String f EmptyString) (step 1 (String c EmptyString) st).
Proof.
  intros Hc Hget Hin.
  rewrite (step_format st f className Hget Hin), (step_color _ c Hc).
  rewrite (step_color st c Hc), (step_format _ f className Hget Hin).
  reflexivity.
Qed.

Lemma formatChar_entry (f : ascii) :
  In f ["b"; "k"; "l"; "m"; "n"]%char ->
  codeChar f = true /\
  exists className,
    JS.get String.eqb formatMap (String amp (String f EmptyString))
    = Some className /\
    In className formatClasses.
Proof.
  intro H. simpl in H.
  repeat (destruct H as [<-|H];
          [split; [reflexivity | eexists; split; [reflexivity | simpl; tauto]]|]).
  contradiction.
Qed.

Lemma dropTags_renderAll (segs : list segment) :
  Forall (fun seg => Forall (fun c => In c contractClasses) (classes seg))
         segs ->
  dropTags false (renderAll segs) = escapeHtml (contents segs).
Proof.
  induction segs as [|seg more IH]; intro H; [reflexivity|].
  inversion H as [|? ? Hseg Hmore]; subst. simpl.
  rewrite dropTags_render by exact Hseg.
  now rewrite IH, escapeHtml_app.
Qed.

(** ** [formatMessageBoardText] *)

(** X6.  A reset code cuts the decode in two: the output of a text with a
    reset code in it is the output of what precedes the code followed by
    the output of what follows it. *)
Theorem reset_splits_decode (pre post : string) :
  formatMessageBoardText (pre ++ "&r" ++ post)
  = formatMessageBoardText pre ++ formatMessageBoardText post.
Proof.
  unfold formatMessageBoardText.
  fold (run initial (pre ++ "&r" ++ post)).
  fold (run initial pre). fold (run initial post).
  change ("&r" ++ post) with (String amp (String "r" post)).
  rewrite run_code by reflexivity. rewrite step_reset.
  rewrite run_html. reflexivity.
Qed.

(** X7.  What is put out before a code is never changed by what comes
    after: the output of the text before a code token begins the output
    of the whole text. *)
Theorem output_before_code_is_final (pre : string) (d : ascii) (post : string) :
  codeChar d = true ->
  exists tail,
    formatMessageBoardText (pre ++ String amp (String d post))
    = formatMessageBoardText pre ++ tail.
Proof.
  intro Hd. unfold formatMessageBoardText.
  fold (run initial (pre ++ String amp (String d post))).
  fold (run initial pre).
  rewrite run_code by exact Hd. rewrite run_html, step_html.
  rewrite append_assoc. eexists. reflexivity.
Qed.

Lemma output_before_code_is_final_witness :
  exists tail,
    formatMessageBoardText ("&1a" ++ String amp (String "l" "b"))
    = formatMessageBoardText "&1a" ++ tail.
Proof. apply (output_before_code_is_final "&1a" "l" "b"). reflexivity. Defined.

(** X8.  The codes [&b] and [&l] are aliases: exchanging one for the
    other anywhere in a text leaves the output unchanged. *)
Theorem bold_aliases (pre post : string) :
  formatMessageBoardText (pre ++ "&b" ++ post)
  = formatMessageBoardText (pre ++ "&l" ++ post).
Proof.
  unfold formatMessageBoardText. f_equal.
  fold (run initial (pre ++ "&b" ++ post)).
  fold (run initial (pre ++ "&l" ++ post)).
  change ("&b" ++ post) with (String amp (String "b" post)).
  change ("&l" ++ post) with (String amp (String "l" post)).
  now rewrite !run_code by reflexivity.
Qed.

(** X9.  Writing a code that has a table entry twice in a row is writing
    it once. *)
Theorem repeated_code_is_idempotent (pre : string) (d : ascii) (post : string) :
  styleChar d = true ->
  formatMessageBoardText
    (pre ++ String amp (String d (String amp (String d post))))
  = formatMessageBoardText (pre ++ String amp (String d post)).
Proof.
  intro Hd. pose proof (styleChar_codeChar d Hd) as Hcode.
  unfold formatMessageBoardText. f_equal.
  fold (run initial (pre ++ String amp (String d (String amp (String d post))))).
  fold (run initial (pre ++ String amp (String d post))).
  rewrite !run_code by exact Hcode.
  rewrite run_code_first by exact Hcode.
  now rewrite step_again.
Qed.

Lemma repeated_code_is_idempotent_witness :
  formatMessageBoardText
    ("a" ++ String amp (String "n" (String amp (String "n" "b"))))
  = formatMessageBoardText ("a" ++ String amp (String "n" "b")).
Proof. apply (repeated_code_is_idempotent "a" "n" "b"). reflexivity. Defined.

(** X10.  A color code and a format code next to each other can be
    written in either order: the class list is formats then color either
    way. *)
Theorem color_and_format_commute (pre : string) (c f : ascii) (post : string) :
  colorDigit c = true ->
  In f ["b"; "k"; "l"; "m"; "n"]%char ->
  formatMessageBoardText
    (pre ++ String amp (String c (String amp (String f post))))
  = formatMessageBoardText
      (pre ++ String amp (String f (String amp (String c post)))).
Proof.
  intros Hc Hf.
  destruct (formatChar_entry f Hf) as (Hfcode & className & Hget & Hin).
  pose proof (colorDigit_codeChar c Hc) as Hccode.
  unfold formatMessageBoardText. f_equal.
  fold (run initial (pre ++ String amp (String c (String amp (String f post))))).
  fold (run initial (pre ++ String amp (String f (String amp (String c post))))).
  rewrite (run_code _ pre c) by exact Hccode.
  rewrite (run_code _ pre f) by exact Hfcode.
  rewrite !run_code_first by assumption.
  now rewrite (set_add_swap_color _ c f className Hc Hget Hin).
Qed.

Lemma color_and_format_commute_witness :
  formatMessageBoardText
    ("a" ++ String amp (String "3" (String amp (String "m" "b"))))
  = formatMessageBoardText
      ("a" ++ String amp (String "m" (String amp (String "3" "b")))).
Proof.
  apply (color_and_format_commute "a" "3" "m" "b").
  - reflexivity.
  - simpl. right. right. right. left. reflexivity.
Defined.



(** X12.  The class list of a segment never names a class twice and has
    at most five classes: at most four formats and one color. *)
Theorem segment_classes_distinct (text : string) (seg : segment) :
  In seg (segments text) ->
  NoDup (classes seg) /\ List.length (classes seg) <= 5.
Proof.
  intro H. destruct (segments_reachable text seg H) as (st & Hst & ->).
  rewrite (classesToApply_reachable st Hst).
  destruct Hst as (Hf & Hn & Hc). rewrite Forall_forall in Hf, Hc.
  split.
  - apply NoDup_app; [exact Hn | |].
    + destruct (activeColorClass st); repeat constructor. intros [].
    + intros a Ha Hcol. destruct (Hf a Ha) as [_ Hnot].
      exact (Hnot (Hc a Hcol)).
  - rewrite length_app.
    assert (Hformats : List.length (activeClasses st) <= 4).
    { apply (NoDup_incl_length
               (l' := [ "message-format-bold"; "message-format-strikethrough";
                        "message-format-underline";
                        "message-format-obfuscated" ])); [exact Hn|].
      intros a Ha. destruct (Hf a Ha) as [Hin Hnot].
      unfold emittedClasses in Hin. apply in_app_or in Hin.
      destruct Hin as [Hin|Hin]; [contradiction | exact Hin]. }
    assert (Hcolor : List.length (colorPart (activeColorClass st)) <= 1).
    { destruct (activeColorClass st); simpl; lia. }
    lia.
Qed.

Lemma segment_classes_distinct_witness :
  NoDup ["message-format-bold"; "message-color-1"] /\
  List.length ["message-format-bold"; "message-color-1"] <= 5.
Proof.
  apply (segment_classes_distinct "&l&1Hello"
           {| classes := ["message-format-bold"; "message-color-1"];
              content := "Hello" |}).
  simpl. left. reflexivity.
Defined.

Lemma classNames_emitted (text c : string) :
  In c (classNames (formatMessageBoardText text)) -> In c emittedClasses.
Proof.
  rewrite classNames_output. intro H.
  apply in_concat in H. destruct H as (cls & Hcls & Hc).
  apply in_map_iff in Hcls. destruct Hcls as (seg & <- & Hseg).
  destruct (segments_reachable text seg Hseg) as (st & Hst & Heq).
  rewrite Heq, (classesToApply_reachable st Hst) in Hc.
  destruct Hst as (Hf & _ & Hcol). rewrite Forall_forall in Hf, Hcol.
  apply in_app_or in Hc. destruct Hc as [Hc|Hc].
  - exact (proj1 (Hf c Hc)).
  - unfold emittedClasses. apply in_or_app. left. exact (Hcol c Hc).
Qed.

(** X13.  The class names a decode puts in its output are the six color
    classes and the bold, strikethrough, underline and obfuscated
    classes; the reset class and the italic class are never put out. *)
Theorem output_classes_are_emitted_classes (text c : string) :
  In c (classNames (formatMessageBoardText text)) ->
  In c emittedClasses /\
  c <> "message-format-reset" /\ c <> "message-format-italic".
Proof.
  intro H. apply classNames_emitted in H. split; [exact H|].
  simpl in H.
  repeat (destruct H as [<-|H]; [split; discriminate|]). contradiction.
Qed.

Lemma output_classes_are_emitted_classes_witness :
  In "message-format-obfuscated" emittedClasses /\
  "message-format-obfuscated" <> "message-format-reset" /\
  "message-format-obfuscated" <> "message-format-italic".
Proof.
  apply (output_classes_are_emitted_classes "&k&r&kx"
                                            "message-format-obfuscated").
  vm_compute. left. reflexivity.
Defined.

(** X14.  With its tags dropped, the output is the escaped form of the
    input without the codes that have a table entry: all the text between
    the tags went through [escapeHtml], once. *)
Theorem output_text_is_escaped (text : string) :
  dropTags false (formatMessageBoardText text)
  = escapeHtml (stripCodes text).
Proof.
  rewrite output_segments. unfold segments.
  rewrite dropTags_renderAll
    by apply segmentsFrom_contract, wellStyled_initial.
  now rewrite segments_contents.
Qed.

(** X15.  The output is empty exactly when the input is made of codes
    that have a table entry and nothing else. *)
Theorem output_empty_iff (text : string) :
  formatMessageBoardText text = EmptyString <->
  stripCodes text = EmptyString.
Proof.
  split; intro H.
  - rewrite <- textContent_output, H. reflexivity.
  - rewrite output_segments.
    pose proof (segments_contents text initial) as Hcontents.
    fold (segments text) in Hcontents. rewrite H in Hcontents.
    destruct (segments text) as [|seg more] eqn:E; [reflexivity|].
    exfalso. apply (segments_content text seg).
    + rewrite E. now left.
    + simpl in Hcontents. now destruct (content seg).
Qed.

(** ** Class lists *)

Lemma contains_In (tokens : list string) (token : string) :
  Lib.contains tokens token = true <-> In token tokens.
Proof.
  unfold Lib.contains. rewrite existsb_exists. split.
  - intros (x & Hx & E). apply String.eqb_eq in E. now subst x.
  - intro H. exists token. split; [exact H | apply String.eqb_refl].
Qed.

Lemma add_In (tokens : list string) (token x : string) :
  In x (Lib.add tokens token) <-> In x tokens \/ x = token.
Proof.
  unfold Lib.add. split.
  - intro H. apply set_add_In in H. tauto.
  - intros [H| ->].
    + unfold JS.set_add. destruct (existsb _ tokens); [exact H|].
      apply in_or_app. now left.
    + destruct (in_dec string_dec token tokens) as [Hin|Hout].
      * now rewrite set_add_present.
      * rewrite set_add_absent by exact Hout. apply in_or_app. right. now left.
Qed.

Lemma contains_add (tokens : list string) (token : string) :
  Lib.contains (Lib.add tokens token) token = true.
Proof. apply contains_In, add_In. now right. Qed.

Lemma contains_add_other (tokens : list string) (token x : string) :
  Lib.contains tokens x = true -> Lib.contains (Lib.add tokens token) x = true.
Proof. rewrite !contains_In, add_In. tauto. Qed.

Lemma add_shape (tokens : list string) (token : string) :
  Lib.add tokens token = tokens \/
  Lib.add tokens token = (tokens ++ [token])%list.
Proof.
  unfold Lib.add, JS.set_add. destruct (existsb _ tokens); [now left | now right].
Qed.

Lemma iter_idempotent {A : Type} (f : A -> A) :
  (forall x, f (f x) = f x) ->
  forall n x, Nat.iter (S n) f x = f x.
Proof.
  intros Hf n x. induction n as [|n IH]; [reflexivity|].
  change (Nat.iter (S (S n)) f x) with (f (Nat.iter (S n) f x)).
  now rewrite IH, Hf.
Qed.


(** ** [applyMessageBoardFormatting] *)

Lemma formatElement_marked (el : Message.element) :
  Lib.contains (Message.classList el) "formatted-by-js" = true ->
  Message.formatElement el = el.
Proof. intro H. unfold Message.formatElement. now rewrite H. Qed.

Lemma formatElement_plain (el : Message.element) :
  JS.includes (Message.textContentOf el) amp = false ->
  Message.formatElement el = el.
Proof.
  intro H. unfold Message.formatElement. rewrite H. now destruct (negb _).
Qed.

Lemma formatElement_decode (el : Message.element) :
  Lib.contains (Message.classList el) "formatted-by-js" = false ->
  JS.includes (Message.textContentOf el) amp = true ->
  Message.formatElement el
  = {| Message.classList := Lib.add (Message.classList el) "formatted-by-js";
       Message.childNodes :=
         Message.Parsed (formatMessageBoardText (Message.textContentOf el)) |}.
Proof. intros F I. unfold Message.formatElement. now rewrite F, I. Qed.

Lemma formatElement_again (el : Message.element) :
  Message.formatElement (Message.formatElement el) = Message.formatElement el.
Proof.
  destruct (Lib.contains (Message.classList el) "formatted-by-js") eqn:F.
  - now rewrite !(formatElement_marked el F).
  - destruct (JS.includes (Message.textContentOf el) amp) eqn:I.
    + rewrite (formatElement_decode el F I).
      apply formatElement_marked. cbn [Message.classList]. apply contains_add.
    + now rewrite !(formatElement_plain el I).
Qed.

Lemma formatElement_classes (el : Message.element) (c : string) :
  In c (Message.classList el) ->
  In c (Message.classList (Message.formatElement el)).
Proof.
  intro H. unfold Message.formatElement.
  destruct (negb _); [|exact H].
  destruct (JS.includes _ amp); [|exact H].
  cbn [Message.classList]. apply add_In. now left.
Qed.

(** X16.  One run of [applyMessageBoardFormatting] does all there is to
    do: running it again, any number of times as the timer of line 186
    does, leaves the page as the first run left it. *)
Theorem message_formatting_runs_once (page : list Message.element) (n : nat) :
  Nat.iter (S n) Message.applyMessageBoardFormatting page
  = Message.applyMessageBoardFormatting page.
Proof.
  apply iter_idempotent. clear. intro page.
  unfold Message.applyMessageBoardFormatting. rewrite List.map_map.
  apply List.map_ext. intro el.
  destruct (Lib.contains (Message.classList el) "message") eqn:E.
  - assert (Hstill : Lib.contains
                       (Message.classList (Message.formatElement el))
                       "message" = true).
    { apply contains_In, formatElement_classes, contains_In, E. }
    rewrite Hstill. apply formatElement_again.
  - now rewrite E.
Qed.

(** X17.  After a run nothing is left to decode: every element of class
    [message] on the page carries the class [formatted-by-js] or has no
    marker in its text. *)
Theorem message_formatting_leaves_nothing (page : list Message.element)
        (el : Message.element) :
  In el (Message.applyMessageBoardFormatting page) ->
  Lib.contains (Message.classList el) "message" = true ->
  Lib.contains (Message.classList el) "formatted-by-js" = true \/
  JS.includes (Message.textContentOf el) amp = false.
Proof.
  unfold Message.applyMessageBoardFormatting. intros Hin Hmsg.
  apply in_map_iff in Hin. destruct Hin as (el0 & Heq & _).
  destruct (Lib.contains (Message.classList el0) "message") eqn:E.
  - subst el. unfold Message.formatElement in *.
    destruct (Lib.contains (Message.classList el0) "formatted-by-js") eqn:F;
      cbn [negb] in *; [now left|].
    destruct (JS.includes (Message.textContentOf el0) amp) eqn:I;
      [|now right].
    left. cbn [Message.classList]. apply contains_add.
  - subst el. rewrite E in Hmsg. discriminate Hmsg.
Qed.

Lemma message_formatting_leaves_nothing_witness :
  Lib.contains ["message"; "formatted-by-js"] "formatted-by-js" = true \/
  JS.includes
    (Message.textContentOf
       {| Message.classList := ["message"; "formatted-by-js"];
          Message.childNodes := Message.Parsed "Tom &amp; Jerry" |}) amp
  = false.
Proof.
  apply (message_formatting_leaves_nothing
           [ {| Message.classList := ["message"];
                Message.childNodes := Message.Original "Tom & Jerry" |} ]
           {| Message.classList := ["message"; "formatted-by-js"];
              Message.childNodes := Message.Parsed "Tom &amp; Jerry" |}).
  - simpl. left. reflexivity.
  - reflexivity.
Defined.



(** ** [applyStatusStyles] *)

Lemma trimStart_blank (w s : string) :
  allChars Lib.isWhiteSpace w = true ->
  Lib.trimStart (w ++ s) = Lib.trimStart s.
Proof.
  induction w as [|c w IH]; simpl; intro H; [reflexivity|].
  apply andb_prop in H. destruct H as [Hc Hw]. rewrite Hc. now apply IH.
Qed.

Lemma trimEnd_blank (s w : string) :
  allChars Lib.isWhiteSpace w = true ->
  Lib.trimEnd (s ++ w) = Lib.trimEnd s.
Proof.
  intro Hw.
  assert (Hblank : Lib.trimEnd w = EmptyString).
  { induction w as [|c w IH]; [reflexivity|].
    simpl in Hw. apply andb_prop in Hw. destruct Hw as [Hc Hw].
    simpl. now rewrite (IH Hw), Hc. }
  induction s as [|c s IH]; [exact Hblank|].
  cbn [append Lib.trimEnd]. now rewrite IH.
Qed.

Lemma trimStart_app_blank (s w : string) :
  allChars Lib.isWhiteSpace w = true ->
  Lib.trimStart (s ++ w)
  = match Lib.trimStart s with
    | EmptyString => EmptyString
    | String c kept => String c kept ++ w
    end.
Proof.
  intro Hw. induction s as [|c s IH].
  - simpl. rewrite <- (append_nil_r w), trimStart_blank by exact Hw.
    reflexivity.
  - cbn [append Lib.trimStart]. destruct (Lib.isWhiteSpace c); [exact IH|].
    reflexivity.
Qed.

(** Padding a text with white space does not change what [trim] gives. *)
Lemma trim_padding (w1 s w2 : string) :
  allChars Lib.isWhiteSpace w1 = true ->
  allChars Lib.isWhiteSpace w2 = true ->
  Lib.trim (w1 ++ s ++ w2) = Lib.trim s.
Proof.
  intros H1 H2. unfold Lib.trim.
  rewrite trimStart_blank by exact H1.
  rewrite trimStart_app_blank by exact H2.
  destruct (Lib.trimStart s) as [|c kept]; [reflexivity|].
  now apply trimEnd_blank.
Qed.

Lemma statusTextOf_first (before : list Status.node) (node : Status.node)
      (after : list Status.node) :
  forallb (fun n => negb (Nat.eqb (Status.nodeType n) Status.TEXT_NODE)) before
  = true ->
  Status.nodeType node = Status.TEXT_NODE ->
  Status.statusTextOf (before ++ node :: after)
  = Lib.trim (Status.textContent node).
Proof.
  intros Hbefore Hnode. induction before as [|n before IH].
  - simpl. now rewrite Hnode.
  - simpl in Hbefore. apply andb_prop in Hbefore.
    destruct Hbefore as [Hn Hbefore]. apply negb_true_iff in Hn.
    simpl. rewrite Hn. now apply IH.
Qed.

Lemma styleElement_cases (el : Status.element) :
  Status.childNodes (Status.styleElement el) = Status.childNodes el /\
  (Status.styleElement el = el \/
   (~ In "status-in-production" (Status.classList el) /\
    ~ In "status-ready-for-production" (Status.classList el) /\
    (Status.classList (Status.styleElement el)
     = (Status.classList el ++ ["status-in-production"])%list \/
     Status.classList (Status.styleElement el)
     = (Status.classList el ++ ["status-ready-for-production"])%list))).
Proof.
  unfold Status.styleElement.
  destruct (Lib.contains (Status.classList el) "status-in-production") eqn:A;
    [split; [reflexivity | now left]|].
  destruct (Lib.contains (Status.classList el) "status-ready-for-production")
    eqn:B; [split; [reflexivity | now left]|].
  cbn [orb].
  assert (HA : ~ In "status-in-production" (Status.classList el)).
  { intro H. apply contains_In in H. rewrite A in H. discriminate H. }
  assert (HB : ~ In "status-ready-for-production" (Status.classList el)).
  { intro H. apply contains_In in H. rewrite B in H. discriminate H. }
  destruct (Status.statusTextOf (Status.childNodes el) =? "IN PRODUCTION").
  - split; [reflexivity|]. right. split; [exact HA|]. split; [exact HB|].
    left. cbn [Status.classList]. unfold Lib.add.
    now apply set_add_absent.
  - destruct (Status.statusTextOf (Status.childNodes el)
              =? "READY FOR PRODUCTION").
    + split; [reflexivity|]. right. split; [exact HA|]. split; [exact HB|].
      right. cbn [Status.classList]. unfold Lib.add.
      now apply set_add_absent.
    + split; [reflexivity | now left].
Qed.

Lemma styleElement_again (el : Status.element) :
  Status.styleElement (Status.styleElement el) = Status.styleElement el.
Proof.
  destruct (styleElement_cases el) as [_ [H|(_ & _ & [H|H])]].
  - now rewrite !H.
  - unfold Status.styleElement at 1. rewrite H.
    replace (Lib.contains (Status.classList el ++ ["status-in-production"])
                          "status-in-production") with true; [reflexivity|].
    symmetry. apply contains_In, in_or_app. right. now left.
  - unfold Status.styleElement at 1. rewrite H.
    replace (Lib.contains
               (Status.classList el ++ ["status-ready-for-production"])
               "status-ready-for-production") with true;
      [now rewrite orb_true_r|].
    symmetry. apply contains_In, in_or_app. right. now left.
Qed.

Lemma styleElement_classes (el : Status.element) (c : string) :
  In c (Status.classList el) ->
  In c (Status.classList (Status.styleElement el)).
Proof.
  intro Hc. destruct (styleElement_cases el) as [_ [H|(_ & _ & [H|H])]];
    rewrite H; [exact Hc | |]; apply in_or_app; now left.
Qed.

(** X19.  One run of [applyStatusStyles] does all there is to do: the
    runs the observer of lines 221-225 starts afterwards leave the page
    as the first run left it. *)
Theorem status_styling_runs_once (page : list Status.element) (n : nat) :
  Nat.iter (S n) Status.applyStatusStyles page = Status.applyStatusStyles page.
Proof.
  apply iter_idempotent. clear. intro page.
  unfold Status.applyStatusStyles. rewrite List.map_map.
  apply List.map_ext. intro el.
  destruct (Lib.contains (Status.classList el) "status-value") eqn:E.
  - assert (Hstill : Lib.contains
                       (Status.classList (Status.styleElement el))
                       "status-value" = true).
    { apply contains_In, styleElement_classes, contains_In, E. }
    rewrite Hstill. apply styleElement_again.
  - now rewrite E.
Qed.

(** X20.  What a run does to each element.  The element keeps its place
    and its child nodes; its class list is left as it was or gets one of
    the two status classes at its end; and an element that did not have
    both status classes before does not have both afterwards. *)
Theorem status_styling_effect (page : list Status.element) (k : nat)
        (el : Status.element) :
  nth_error page k = Some el ->
  exists el',
    nth_error (Status.applyStatusStyles page) k = Some el' /\
    Status.childNodes el' = Status.childNodes el /\
    (Status.classList el' = Status.classList el \/
     Status.classList el'
     = (Status.classList el ++ ["status-in-production"])%list \/
     Status.classList el'
     = (Status.classList el ++ ["status-ready-for-production"])%list) /\
    (~ (In "status-in-production" (Status.classList el) /\
        In "status-ready-for-production" (Status.classList el)) ->
     ~ (In "status-in-production" (Status.classList el') /\
        In "status-ready-for-production" (Status.classList el'))).
Proof.
  intro Hnth. unfold Status.applyStatusStyles.
  rewrite nth_error_map, Hnth. cbn [option_map].
  eexists. split; [reflexivity|].
  destruct (Lib.contains (Status.classList el) "status-value");
    [|split; [reflexivity | split; [now left | tauto]]].
  destruct (styleElement_cases el) as [Hnodes [H|(HA & HB & [H|H])]].
  - rewrite H. split; [reflexivity | split; [now left | tauto]].
  - split; [exact Hnodes|]. split; [right; now left|].
    intros _ [_ Hready]. rewrite H in Hready.
    apply in_app_or in Hready. destruct Hready as [Hready|[Hready|[]]];
      [contradiction | discriminate Hready].
  - split; [exact Hnodes|]. split; [right; now right|].
    intros _ [Hprod _]. rewrite H in Hprod.
    apply in_app_or in Hprod. destruct Hprod as [Hprod|[Hprod|[]]];
      [contradiction | discriminate Hprod].
Qed.

Lemma status_styling_effect_witness :
  exists el',
    nth_error
      (Status.applyStatusStyles
         [ {| Status.classList := ["status-value"];
              Status.childNodes :=
                [ {| Status.nodeType := 3;
                     Status.textContent := " IN PRODUCTION " |} ] |} ]) 0
    = Some el' /\
    Status.childNodes el'
    = [ {| Status.nodeType := 3; Status.textContent := " IN PRODUCTION " |} ] /\
    (Status.classList el' = ["status-value"] \/
     Status.classList el'
     = (["status-value"] ++ ["status-in-production"])%list \/
     Status.classList el'
     = (["status-value"] ++ ["status-ready-for-production"])%list) /\
    (~ (In "status-in-production" ["status-value"] /\
        In "status-ready-for-production" ["status-value"]) ->
     ~ (In "status-in-production" (Status.classList el') /\
        In "status-ready-for-production" (Status.classList el'))).
Proof.
  apply (status_styling_effect
           [ {| Status.classList := ["status-value"];
                Status.childNodes :=
                  [ {| Status.nodeType := 3;
                       Status.textContent := " IN PRODUCTION " |} ] |} ]
           0
           {| Status.classList := ["status-value"];
              Status.childNodes :=
                [ {| Status.nodeType := 3;
                     Status.textContent := " IN PRODUCTION " |} ] |}).
  reflexivity.
Defined.

(** X21.  The class an element gets depends on its first text node
    alone, and on the text of that node only up to the white space around
    it: the nodes before it that are not text nodes, the nodes after it,
    and white space at either end of its text change nothing. *)
Theorem status_depends_on_first_text (classList : list string)
        (before : list Status.node) (w1 text w2 : string)
        (after : list Status.node) :
  forallb (fun n => negb (Nat.eqb (Status.nodeType n) Status.TEXT_NODE)) before
  = true ->
  allChars Lib.isWhiteSpace w1 = true ->
  allChars Lib.isWhiteSpace w2 = true ->
  Status.classList
    (Status.styleElement
       {| Status.classList := classList;
          Status.childNodes :=
            (before
             ++ {| Status.nodeType := Status.TEXT_NODE;
                   Status.textContent := w1 ++ text ++ w2 |} :: after)%list |})
  = Status.classList
      (Status.styleElement
         {| Status.classList := classList;
            Status.childNodes :=
              [ {| Status.nodeType := Status.TEXT_NODE;
                   Status.textContent := text |} ] |}).
Proof.
  intros Hbefore H1 H2. unfold Status.styleElement.
  cbn [Status.classList Status.childNodes].
  rewrite (statusTextOf_first
             before
             {| Status.nodeType := Status.TEXT_NODE;
                Status.textContent := w1 ++ text ++ w2 |}
             after Hbefore eq_refl).
  cbn [Status.textContent]. rewrite (trim_padding w1 text w2 H1 H2).
  change (Status.statusTextOf
            [ {| Status.nodeType := Status.TEXT_NODE;
                 Status.textContent := text |} ])
    with (Lib.trim text).
  destruct (_ || _)%bool; [reflexivity|].
  destruct (Lib.trim text =? "IN PRODUCTION"); [reflexivity|].
  now destruct (Lib.trim text =? "READY FOR PRODUCTION").
Qed.

Lemma status_depends_on_first_text_witness :
  Status.classList
    (Status.styleElement
       {| Status.classList := ["status-value"];
          Status.childNodes :=
            ([ {| Status.nodeType := 1; Status.textContent := "IN PRODUCTION" |} ]
             ++ {| Status.nodeType := Status.TEXT_NODE;
                   Status.textContent :=
                     String "010" "  " ++ "READY FOR PRODUCTION" ++ " " |}
             :: [ {| Status.nodeType := 3;
                     Status.textContent := "IN PRODUCTION" |} ])%list |})
  = Status.classList
      (Status.styleElement
         {| Status.classList := ["status-value"];
            Status.childNodes :=
              [ {| Status.nodeType := Status.TEXT_NODE;
                   Status.textContent := "READY FOR PRODUCTION" |} ] |}).
Proof.
  apply (status_depends_on_first_text
           ["status-value"]
           [ {| Status.nodeType := 1; Status.textContent := "IN PRODUCTION" |} ]
           (String "010" "  ") "READY FOR PRODUCTION" " "
           [ {| Status.nodeType := 3; Status.textContent := "IN PRODUCTION" |} ]);
    reflexivity.
Defined.

(** X22.  An element of class [status-value] that has neither status
    class gets [status-in-production] exactly when the trimmed text of
    its first text node is [IN PRODUCTION], and
    [status-ready-for-production] exactly when it is
    [READY FOR PRODUCTION]; the comparison is exact. *)
Theorem status_class_follows_text (el : Status.element) :
  ~ In "status-in-production" (Status.classList el) ->
  ~ In "status-ready-for-production" (Status.classList el) ->
  (In "status-in-production" (Status.classList (Status.styleElement el)) <->
   Status.statusTextOf (Status.childNodes el) = "IN PRODUCTION") /\
  (In "status-ready-for-production"
      (Status.classList (Status.styleElement el)) <->
   Status.statusTextOf (Status.childNodes el) = "READY FOR PRODUCTION").
Proof.
  intros HA HB. unfold Status.styleElement.
  replace (Lib.contains (Status.classList el) "status-in-production")
    with false
    by (symmetry; apply not_true_is_false; now rewrite contains_In).
  replace (Lib.contains (Status.classList el) "status-ready-for-production")
    with false
    by (symmetry; apply not_true_is_false; now rewrite contains_In).
  cbn [orb].
  destruct (Status.statusTextOf (Status.childNodes el) =? "IN PRODUCTION")
    eqn:P.
  - apply String.eqb_eq in P. rewrite P. cbn [Status.classList].
    rewrite !add_In. split; split; intro H.
    + reflexivity.
    + now right.
    + destruct H as [H|H]; [contradiction | discriminate H].
    + discriminate H.
  - apply String.eqb_neq in P.
    destruct (Status.statusTextOf (Status.childNodes el)
              =? "READY FOR PRODUCTION") eqn:R.
    + apply String.eqb_eq in R. cbn [Status.classList].
      rewrite !add_In. split; split; intro H.
      * destruct H as [H|H]; [contradiction | discriminate H].
      * contradiction.
      * exact R.
      * now right.
    + apply String.eqb_neq in R. split; split; intro H; contradiction.
Qed.

Lemma status_class_follows_text_witness :
  (In "status-in-production"
      (Status.classList
         (Status.styleElement
            {| Status.classList := ["status-value"];
               Status.childNodes :=
                 [ {| Status.nodeType := 3;
                      Status.textContent := " In Production " |} ] |})) <->
   Status.statusTextOf
     [ {| Status.nodeType := 3; Status.textContent := " In Production " |} ]
   = "IN PRODUCTION") /\
  (In "status-ready-for-production"
      (Status.classList
         (Status.styleElement
            {| Status.classList := ["status-value"];
               Status.childNodes :=
                 [ {| Status.nodeType := 3;
                      Status.textContent := " In Production " |} ] |})) <->
   Status.statusTextOf
     [ {| Status.nodeType := 3; Status.textContent := " In Production " |} ]
   = "READY FOR PRODUCTION").
Proof.
  apply (status_class_follows_text
           {| Status.classList := ["status-value"];
              Status.childNodes :=
                [ {| Status.nodeType := 3;
                     Status.textContent := " In Production " |} ] |});
    simpl; intros [H|[]]; discriminate H.
Defined.

(** ** The style sheet *)

(** X23.  The style sheet of lines 9-48 has a rule for every class the
    script puts on the page, but for one: each class name in the output
    of a decode other than [message-format-obfuscated], and each class
    [applyStatusStyles] adds to an element.  It has no rule for
    [message-format-obfuscated]. *)
Theorem emitted_classes_have_rules :
  (forall text c,
      In c (classNames (formatMessageBoardText text)) ->
      c = "message-format-obfuscated" \/ hasRule dynamicStyles c = true) /\
  hasRule dynamicStyles "message-format-obfuscated" = false /\
  (forall el c,
      In c (Status.classList (Status.styleElement el)) ->
      In c (Status.classList el) \/ hasRule dynamicStyles c = true).
Proof.
  split; [|split].
  - intros text c H. apply classNames_emitted in H. simpl in H.
    repeat (destruct H as [<-|H];
            [first [left; reflexivity | right; vm_compute; reflexivity]|]).
    contradiction.
  - vm_compute. reflexivity.
  - intros el c H.
    destruct (styleElement_cases el) as [_ [E|(_ & _ & [E|E])]];
      rewrite E in H; [now left | |];
      apply in_app_or in H; destruct H as [H|[<-|[]]];
      first [now left | right; vm_compute; reflexivity].
Qed.

Lemma emitted_classes_have_rules_witness :
  "message-color-4" = "message-format-obfuscated" \/
  hasRule dynamicStyles "message-color-4" = true.
Proof.
  apply (proj1 emitted_classes_have_rules "&l&4x" "message-color-4").
  vm_compute. right. left. reflexivity.
Defined.

(** ** The pieces of line 112 *)

Lemma rejoin_parity (parts : list string) :
  forall i j, Nat.odd i = Nat.odd j -> rejoin i parts = rejoin j parts.
Proof.
  induction parts as [|part more IH]; intros i j H; [reflexivity|].
  simpl. rewrite H. f_equal. apply IH.
  rewrite !Nat.odd_succ, <- !Nat.negb_odd, H. reflexivity.
Qed.

Lemma split_head (s : string) :
  exists piece more,
    JS.split s = piece :: more /\
    (piece = EmptyString \/
     exists d piece' s', piece = String d piece' /\ s = String d s').
Proof.
  induction s as [|c | c d s IHs IHds] using string_pair_ind.
  - exists EmptyString, []. split; [reflexivity | now left].
  - exists (String c EmptyString), []. split; [reflexivity|]. right.
    now exists c, EmptyString, EmptyString.
  - destruct (Ascii.eqb c amp && codeChar d)%bool eqn:E.
    + cbn [JS.split]. rewrite E. eexists _, _. split; [reflexivity | now left].
    + rewrite split_text by exact E.
      destruct (split_cons (String d s)) as (piece & more & ->).
      eexists _, _. split; [reflexivity|]. right.
      now exists c, piece, (String d s).
Qed.

Lemma split_pieces (text : string) :
  forall i piece,
    nth_error (JS.split text) i = Some piece ->
    Nat.odd i = false ->
    JS.split piece = [piece].
Proof.
  induction text as [|c | c e s IHs IHes] using string_pair_ind;
    intros i piece Hnth Heven.
  - destruct i as [|[|i]]; try discriminate. now injection Hnth as <-.
  - destruct i as [|[|i]]; try discriminate. now injection Hnth as <-.
  - destruct (Ascii.eqb c amp && codeChar e)%bool eqn:E.
    + cbn [JS.split] in Hnth. rewrite E in Hnth.
      destruct i as [|[|i]]; [now injection Hnth as <- | discriminate |].
      exact (IHs i piece Hnth Heven).
    + rewrite split_text in Hnth by exact E.
      destruct (split_head (String e s)) as (p & more & Hsplit & Hhead).
      rewrite Hsplit in *. destruct i as [|i].
      * injection Hnth as <-.
        rewrite split_text.
        -- now rewrite (IHes 0 p eq_refl eq_refl).
        -- destruct Hhead as [->|(d & p' & s' & -> & Hs)];
             [apply andb_false_r|].
           injection Hs as <- _. exact E.
      * exact (IHes (S i) piece Hnth Heven).
Qed.

(** X24.  The pieces lose nothing and hide no code: put back together
    with the marker before each captured character they are the input,
    and a piece of text contains no code token. *)
Theorem split_round_trip (text : string) :
  rejoin 0 (JS.split text) = text /\
  forall i piece,
    nth_error (JS.split text) i = Some piece ->
    Nat.odd i = false ->
    JS.split piece = [piece].
Proof.
  split; [|apply split_pieces].
  induction text as [|c | c e s IHs IHes] using string_pair_ind.
  - reflexivity.
  - reflexivity.
  - destruct (Ascii.eqb c amp && codeChar e)%bool eqn:E.
    + cbn [JS.split]. rewrite E. apply andb_prop in E. destruct E as [Ec _].
      apply Ascii.eqb_eq in Ec. subst c.
      change (rejoin 0 (EmptyString :: String e EmptyString :: JS.split s))
        with (String amp (String e (rejoin 2 (JS.split s)))).
      rewrite (rejoin_parity _ 2 0) by reflexivity. now rewrite IHs.
    + rewrite split_text by exact E.
      destruct (split_cons (String e s)) as (piece & more & Hsplit).
      rewrite Hsplit in *. simpl in IHes. simpl. now rewrite IHes.
Qed.

Lemma split_round_trip_witness : JS.split "b&&x" = ["b&&x"].
Proof.
  apply (proj2 (split_round_trip "a&1b&&x&k") 2 "b&&x"); reflexivity.
Defined.
